(** * Job execution engine and device registry

    A shallow embedding of [src/server/middleware/jobs/job.js] (the per-job
    state machine and its command handlers) and of the [Bots] registry class
    (its [initialize] method), together with the properties of the
    natural-language specification that concern them.

    Conventions of the embedding.

    - JavaScript values that the code only stores, compares with [undefined]
      or tests for truthiness are values of [JsVal].
    - A [bsync] function is a computation in the monad [M]: it threads the
      object it mutates ([this]), may throw, and appends the calls it makes on
      the outside world (logger, database model, socket broadcast, device
      handle, stopwatch) to a trace, in program order.
    - What the collaborators answer (is there a registry of bots, does the
      device call fail, is the database row found, what time is it) is read
      from a [World] record, so every theorem quantifies over all their
      possible answers.
    - A command is run from its first statement to its last with nothing
      else in between: what another command or a timer would do while the
      command waits for the device is not modelled.
    - The [onenterstate] callback is itself a [bsync] function, whose promise
      the state machine does not wait for.  It is a [Fiber]: what it does up
      to its first [bwait] is done where the callback is invoked, and what it
      does after each [bwait] is done later, on the job as it is by then. *)

From Stdlib Require Import Ascii String List ZArith Bool Lia.
Import ListNotations.
Open Scope string_scope.
Open Scope list_scope.
Open Scope Z_scope.

(* ------------------------------------------------------------------ *)
(** ** JavaScript values *)

Inductive JsVal : Type :=
| JUndefined
| JNull
| JBool (b : bool)
| JNum (z : Z)
| JStr (s : string).

(** [!!v] *)
Definition truthy (v : JsVal) : bool :=
  match v with
  | JUndefined | JNull => false
  | JBool b => b
  | JNum z => negb (z =? 0)
  | JStr s => negb (s =? "")%string
  end.

(** [a || b] *)
Definition js_or (a b : JsVal) : JsVal := if truthy a then a else b.

(** [v === undefined] *)
Definition is_undefined (v : JsVal) : bool :=
  match v with JUndefined => true | _ => false end.

(** [s.indexOf(sub)] *)
Definition indexOf (s sub : string) : Z :=
  match String.index 0 sub s with
  | Some n => Z.of_nat n
  | None => -1
  end.

(** An object used as a map from property names to values: an association
    list of its own properties in insertion order.  [aget k o] is [o[k]]
    ([None] for a missing property) and [aset k v o] is the object after
    [o[k] = v], for a name [k] that the assignment makes an own property. *)
Fixpoint aget {V} (k : string) (l : list (string * V)) : option V :=
  match l with
  | [] => None
  | (k', v) :: l' => if (k' =? k)%string then Some v else aget k l'
  end.

Fixpoint aset {V} (k : string) (v : V) (l : list (string * V)) : list (string * V) :=
  match l with
  | [] => [(k, v)]
  | (k', v') :: l' =>
      if (k' =? k)%string then (k, v) :: l' else (k', v') :: aset k v l'
  end.

(** [o[k] = v] for any name: the name [__proto__] is not made a property of
    the object (an object assigned to it becomes the prototype, and the own
    properties are as before). *)
Definition assign {V} (k : string) (v : V) (o : list (string * V)) : list (string * V) :=
  if (k =? "__proto__")%string then o else aset k v o.

(** [s.split('.')[0]] *)
Fixpoint before_dot (s : string) : string :=
  match s with
  | EmptyString => EmptyString
  | String c s' => if Ascii.eqb c "."%char then EmptyString else String c (before_dot s')
  end.

(* ------------------------------------------------------------------ *)
(** ** Computations with state, exceptions and a trace of outside calls *)

Inductive Res (Ex A : Type) : Type :=
| Ret (a : A)
| Throw (e : Ex).
Arguments Ret {Ex A} a.
Arguments Throw {Ex A} e.

Definition M (St Ex Ev A : Type) : Type := St -> Res Ex A * St * list Ev.

Section Monad.
Context {St Ex Ev : Type}.

Definition ret {A} (a : A) : M St Ex Ev A := fun s => (Ret a, s, []).

Definition bind {A B} (m : M St Ex Ev A) (f : A -> M St Ex Ev B) : M St Ex Ev B :=
  fun s =>
    match m s with
    | (Ret a, s1, t1) => let '(r, s2, t2) := f a s1 in (r, s2, t1 ++ t2)
    | (Throw e, s1, t1) => (Throw e, s1, t1)
    end.

Definition throw {A} (e : Ex) : M St Ex Ev A := fun s => (Throw e, s, []).

(** [try { m } catch (ex) { h ex }] *)
Definition try_catch {A} (m : M St Ex Ev A) (h : Ex -> M St Ex Ev A) : M St Ex Ev A :=
  fun s =>
    match m s with
    | (Ret a, s1, t1) => (Ret a, s1, t1)
    | (Throw e, s1, t1) => let '(r, s2, t2) := h e s1 in (r, s2, t1 ++ t2)
    end.

Definition gets {A} (f : St -> A) : M St Ex Ev A := fun s => (Ret (f s), s, []).

Definition modify (f : St -> St) : M St Ex Ev unit := fun s => (Ret tt, f s, []).

Definition emit (ev : Ev) : M St Ex Ev unit := fun s => (Ret tt, s, [ev]).

End Monad.

Declare Scope monad_scope.
Delimit Scope monad_scope with monad.
Notation "x <- m ;; k" := (bind m (fun x => k))
  (at level 61, m at next level, right associativity) : monad_scope.
Notation "m ;; k" := (bind m (fun _ => k))
  (at level 61, right associativity) : monad_scope.
Open Scope monad_scope.

(** [for (const x of l) { body x }] *)
Fixpoint for_of {St Ex Ev A} (l : list A) (body : A -> M St Ex Ev unit) : M St Ex Ev unit :=
  match l with
  | [] => ret tt
  | x :: l' => body x;; for_of l' body
  end.

Definition result_of {St Ex Ev A} (x : Res Ex A * St * list Ev) : Res Ex A := fst (fst x).
Definition state_of {St Ex Ev A} (x : Res Ex A * St * list Ev) : St := snd (fst x).
Definition trace_of {St Ex Ev A} (x : Res Ex A * St * list Ev) : list Ev := snd x.

(** A computation keeps [P] when the state it leaves satisfies [P] whenever
    the state it starts from does, whether it returns or throws. *)
Definition preserves {St Ex Ev A} (P : St -> Prop) (m : M St Ex Ev A) : Prop :=
  forall s, P s -> P (state_of (m s)).

(** Two computations agree when, from the same state, they return or throw
    the same thing and leave the same state; the calls they make may
    differ. *)
Definition agree {St Ex Ev A} (m m' : M St Ex Ev A) : Prop :=
  forall s, result_of (m s) = result_of (m' s) /\ state_of (m s) = state_of (m' s).


(* ------------------------------------------------------------------ *)
(** ** The state machine library ([StateMachine.create])

    The engine builds its machine with [StateMachine.create(fsmSettings)] of
    the [javascript-state-machine] package.  The part of the package that the
    job uses is embedded here: the construction of the transition map from the
    [events] table, the event methods built from it, the [error] hook and the
    [onenterstate] callback.  No other callback is installed by the job, so
    the before/leave/after hooks of the package do nothing and are omitted. *)

Module StateMachine.

Definition SUCCEEDED : Z := 1.
Definition NOTRANSITION : Z := 2.
Definition INVALID_TRANSITION : Z := 100.
Definition INVALID_CALLBACK : Z := 300.
Definition WILDCARD : string := "*".

(** The [from] of a row is one state or an array of states. *)
Inductive From : Type :=
| One (s : string)
| Many (l : list string).

Record Event : Type := { name : string; from : From; to : string }.

(** [map[event][from] = to] *)
Definition Transitions : Type := list (string * string).
Definition Map : Type := list (string * Transitions).

(** [(e.from instanceof Array) ? e.from : (e.from ? [e.from] : [WILDCARD])] *)
Definition from_array (e : Event) : list string :=
  match from e with
  | Many l => l
  | One s => if (s =? "")%string then [WILDCARD] else [s]
  end.

(** [e.to || from[n]] *)
Definition target (e : Event) (f : string) : string :=
  if (to e =? "")%string then f else to e.

(** [add]: the states a row lists are merged into [map[e.name]], which is
    made when the event has none yet; a later row overwrites an earlier one
    for the same state. *)
Definition add (map : Map) (e : Event) : Map :=
  let m0 := match aget (name e) map with Some m => m | None => [] end in
  aset (name e) (fold_left (fun m f => aset f (target e f) m) (from_array e) m0) map.

(** Some row of the table bears the name [n] and lists the state [f]. *)
Definition has_row (rows : list Event) (n f : string) : bool :=
  existsb (fun e => (name e =? n)%string
                    && existsb (fun f' => (f' =? f)%string) (from_array e)) rows.

(** Some row of the table bears the name [n]. *)
Definition is_event (rows : list Event) (n : string) : bool :=
  existsb (fun e => (name e =? n)%string) rows.

(** [o.hasOwnProperty(k)], for [o[k]] read as an option. *)
Definition defined {V} (o : option V) : bool :=
  match o with Some _ => true | None => false end.

(** [map[n]], or the empty object when there is no such event. *)
Definition transitions_of (map : Map) (n : string) : Transitions :=
  match aget n map with Some m => m | None => [] end.

(** The map built by [create]: the [startup] event from [none] to the initial
    state first, then the rows of [cfg.events]. *)
Definition build (initial : string) (events : list Event) : Map :=
  fold_left add events
    (add [] {| name := "startup"; from := One "none"; to := initial |}).

Section Machine.
Variables St Ex Ev : Type.
(** [fsm.current] *)
Variable current : St -> string.
Variable set_current : string -> St -> St.
(** [cfg.error (eventName, from, to, args, errorCode, errorMessage)] *)
Variable error : string -> string -> string -> Z -> string -> M St Ex Ev Z.
(** [cfg.callbacks.onenterstate (event, from, to)] *)
Variable onenterstate : string -> string -> string -> M St Ex Ev unit.
(** Calling a property that is not a function. *)
Variable not_a_function : string -> Ex.

Definition doCallback (func : string -> string -> string -> M St Ex Ev unit)
    (name from to : string) : M St Ex Ev unit :=
  try_catch (func name from to)
    (fun _ =>
       error name from to INVALID_CALLBACK
         "an exception occurred in a caller-provided callback function";;
       ret tt).

(** [map[from] || map[WILDCARD] || from] *)
Definition destination (m : Transitions) (from : string) : string :=
  match aget from m with
  | Some t => if (t =? "")%string
              then match aget WILDCARD m with
                   | Some t' => if (t' =? "")%string then from else t'
                   | None => from
                   end
              else t
  | None => match aget WILDCARD m with
            | Some t' => if (t' =? "")%string then from else t'
            | None => from
            end
  end.

(** [fsm.can(event)]: no transition is ever pending here, since no leave
    callback is installed. *)
Definition can (m : Transitions) (from : string) : bool :=
  match aget from m with
  | Some _ => true
  | None => match aget WILDCARD m with Some _ => true | None => false end
  end.

(** The method [fsm[name]] built by [buildEvent (name, map[name])].  A
    transition that changes the state sets [fsm.current] and then calls
    [onenterstate]; one that does not ([from === to]) calls no callback. *)
Definition buildEvent (name : string) (m : Transitions) : M St Ex Ev Z :=
  from <- gets current;;
  let to := destination m from in
  if negb (can m from) then
    error name from to INVALID_TRANSITION
      ("event " ++ name ++ " inappropriate in current state " ++ from)%string
  else if (from =? to)%string then
    ret NOTRANSITION
  else
    modify (set_current to);;
    doCallback onenterstate name from to;;
    ret SUCCEEDED.

(** [fsm.name()]: the method exists only when some row bears that name. *)
Definition call (map : Map) (name : string) : M St Ex Ev Z :=
  match aget name map with
  | Some m => buildEvent name m
  | None => throw (not_a_function name)
  end.

End Machine.

Arguments doCallback {St Ex Ev} error func name from to.
Arguments buildEvent {St Ex Ev} current set_current error onenterstate name m.
Arguments call {St Ex Ev} current set_current error onenterstate not_a_function map name.

End StateMachine.

(* ------------------------------------------------------------------ *)
(** ** The job ([job.js]) *)

(** The object returned by [getJob]. *)
Module Projection.
Record t : Type := {
  botUuid : JsVal;
  uuid : JsVal;
  state : string;
  fileUuid : JsVal;
  started : JsVal;
  elapsed : JsVal;
  percentComplete : Z
}.
End Projection.

(** The object passed to [dbJob.updateAttributes]. *)
Module Attributes.
Record t : Type := {
  state : string;
  fileUuid : JsVal;
  started : JsVal;
  elapsed : JsVal;
  percentComplete : Z
}.
End Attributes.

(** The argument of the [Job] constructor ([app] and [subscribers] play no
    part in what follows). *)
Module JobParams.
Record t : Type := {
  botUuid : JsVal;
  fileUuid : JsVal;
  initialState : option string;
  id : JsVal;
  jobUuid : JsVal
}.
End JobParams.

Module Job.

(** The four operations of the device handle that a job calls. *)
Inductive DevOp : Type := StartJob | Pause | Resume | Cancel.

(** Values thrown. *)
Inductive Exn : Type :=
(** the string built and thrown by [fsmSettings.error] *)
| FsmError (uuid : JsVal) (eventName from to : string) (errorCode : Z) (errorMessage : string)
(** TypeError: calling a property that is not a function *)
| NotAFunction (what : string)
(** TypeError: reading a property of [what], which is [undefined] or [null] *)
| NoProperty (what : string)
(** a collaborator threw, or its promise was rejected *)
| Rejected (msg : string)
(** [`Command ${command} is not supported`] *)
| NotSupported (command : string)
(** ['"botUuid" is not defined'] *)
| BotUuidNotDefined.

Inductive LogMsg : Type :=
| MsgThrown (e : Exn)
| MsgTransition (botUuid uuid : JsVal) (event from to : string)
| MsgUpdated (event : string) (uuid : JsVal) (state : string)
| MsgUpdateFailed (event : string) (uuid : JsVal) (ex : Exn)
| MsgJobEvent (p : Projection.t)
| MsgFailure (what : string) (ex : Exn)
| MsgCantCancel (ex : Exn).

(** Calls on the collaborators. *)
Inductive Effect : Type :=
| LogInfo (m : LogMsg)
| LogError (m : LogMsg)
| FindById (id : JsVal)
| UpdateAttributes (id : JsVal) (a : Attributes.t)
| Broadcast (uuid : JsVal) (data : Projection.t)
| BotCommand (op : DevOp)
(** [jobModel(app)] *)
| CallJobModel.

(** What the collaborators answer during one command. *)
Inductive FindResult : Type := Found | Absent | FindRejected (msg : string).

(** The device handle: for each of its operations, the message of its
    failure, or [None] when it succeeds. *)
Record Handle : Type := {
  startJob : option string;
  commands_pause : option string;
  commands_resume : option string;
  commands_cancel : option string
}.

Definition answer (b : Handle) (op : DevOp) : option string :=
  match op with
  | StartJob => startJob b
  | Pause => commands_pause b
  | Resume => commands_resume b
  | Cancel => commands_cancel b
  end.

(** What the job finds at [app.context.bots.botList]: no such object (the
    [Bots] class below keeps its handles in [bots] and has no [botList]), or
    an object, with what it holds for the bot of the job, [None] when it
    holds no handle for it. *)
Inductive Registry : Type :=
| NoBotList
| BotList (bot : option Handle).

Record World : Type := {
  (** [jobModel(app)]: the message of its rejection, [None] when it resolves *)
  jobModel : option string;
  (** [app.context.bots.botList] *)
  bots : Registry;
  (** [JobModel.findById (id)] *)
  findById : FindResult;
  (** [dbJob.updateAttributes (...)], [None] when it succeeds *)
  updateAttributes : option string;
  (** [new Date().getTime()] *)
  now : Z
}.

(** [new Stopwatch(false, ...)] of the [timer-stopwatch] package, counting
    up: whether it is running, the clock reading that counts as zero
    ([refTime]) and the milliseconds counted when it last looked at the
    clock ([ms]). *)
Record Stopwatch : Type := { running : bool; refTime : Z; ms : Z }.

Record t : Type := {
  botUuid : JsVal;
  fileUuid : JsVal;
  uuid : JsVal;
  initialState : option string;
  id : JsVal;
  (** [this.fsm.current] *)
  current : string;
  stopwatch : Stopwatch;
  started : JsVal;
  elapsed : JsVal;
  percentComplete : Z
}.

Definition set_current (s : string) (j : t) : t :=
  {| botUuid := botUuid j; fileUuid := fileUuid j; uuid := uuid j;
     initialState := initialState j; id := id j; current := s;
     stopwatch := stopwatch j; started := started j; elapsed := elapsed j;
     percentComplete := percentComplete j |}.

Definition set_stopwatch (sw : Stopwatch) (j : t) : t :=
  {| botUuid := botUuid j; fileUuid := fileUuid j; uuid := uuid j;
     initialState := initialState j; id := id j; current := current j;
     stopwatch := sw; started := started j; elapsed := elapsed j;
     percentComplete := percentComplete j |}.

Definition set_started (v : JsVal) (j : t) : t :=
  {| botUuid := botUuid j; fileUuid := fileUuid j; uuid := uuid j;
     initialState := initialState j; id := id j; current := current j;
     stopwatch := stopwatch j; started := v; elapsed := elapsed j;
     percentComplete := percentComplete j |}.

Definition set_elapsed (v : JsVal) (j : t) : t :=
  {| botUuid := botUuid j; fileUuid := fileUuid j; uuid := uuid j;
     initialState := initialState j; id := id j; current := current j;
     stopwatch := stopwatch j; started := started j; elapsed := v;
     percentComplete := percentComplete j |}.

Definition set_percentComplete (p : Z) (j : t) : t :=
  {| botUuid := botUuid j; fileUuid := fileUuid j; uuid := uuid j;
     initialState := initialState j; id := id j; current := current j;
     stopwatch := stopwatch j; started := started j; elapsed := elapsed j;
     percentComplete := p |}.

Definition JobM : Type -> Type := M t Exn Effect.

(** The constructor; [generated] is the value of [uuidGenerator.v1()].  The
    fields that [initialize] assigns are given the values they have before
    that: no machine state, no stopwatch reading, nothing started. *)
Definition new (generated : string) (jobParams : JobParams.t) : t :=
  {| botUuid := JobParams.botUuid jobParams;
     fileUuid := JobParams.fileUuid jobParams;
     uuid := if is_undefined (JobParams.jobUuid jobParams)
             then JStr generated else JobParams.jobUuid jobParams;
     initialState := JobParams.initialState jobParams;
     id := JobParams.id jobParams;
     current := "none";
     stopwatch := {| running := false; refTime := 0; ms := 0 |};
     started := JUndefined;
     elapsed := JUndefined;
     percentComplete := 0 |}.

(** [getJob] *)
Definition getJob (j : t) : Projection.t :=
  let state := if (current j =? "")%string then "ready" else current j in
  let started' := if truthy (started j) then started j else JNull in
  let elapsed' :=
    if truthy (started j) then js_or (JNum (ms (stopwatch j))) (elapsed j) else JNull in
  {| Projection.botUuid := botUuid j;
     Projection.uuid := uuid j;
     Projection.state := state;
     Projection.fileUuid := if is_undefined (fileUuid j) then JBool false else fileUuid j;
     Projection.started := started';
     Projection.elapsed := elapsed';
     Projection.percentComplete := percentComplete j |}.

(** The argument of [dbJob.updateAttributes] in [onenterstate]. *)
Definition attributes (j : t) : Attributes.t :=
  {| Attributes.state := current j;
     Attributes.fileUuid := fileUuid j;
     Attributes.started := started j;
     Attributes.elapsed := JNum (ms (stopwatch j));
     Attributes.percentComplete := percentComplete j |}.

Definition cancelable : list string :=
  ["running"; "paused"; "starting"; "pausing"; "resuming"].

Import StateMachine.

(** [fsmSettings.events] *)
Definition events : list Event :=
  [ {| name := "start";       from := One "ready";     to := "starting"  |};
    {| name := "startFail";   from := One "starting";  to := "ready"     |};
    {| name := "startDone";   from := One "starting";  to := "running"   |};
    {| name := "pause";       from := One "running";   to := "pausing"   |};
    {| name := "pause";       from := One "paused";    to := "paused"    |};
    {| name := "pauseFail";   from := One "pausing";   to := "running"   |};
    {| name := "pauseDone";   from := One "pausing";   to := "paused"    |};
    {| name := "resume";      from := One "paused";    to := "resuming"  |};
    {| name := "resume";      from := One "running";   to := "running"   |};
    {| name := "resumeFail";  from := One "resuming";  to := "paused"    |};
    {| name := "resumeDone";  from := One "resuming";  to := "running"   |};
    {| name := "runningDone"; from := One "running";   to := "complete"  |};
    {| name := "cancel";      from := Many cancelable; to := "canceling" |};
    {| name := "cancelFail";  from := One "canceling"; to := "canceled"  |} ].

(** [fsmSettings.initial] *)
Definition initial (j : t) : string :=
  match initialState j with
  | None => "ready"
  | Some s => s
  end.

(** The log and the broadcast of the projection, as made in [onenterstate]
    and in the handler of the stopwatch. *)
Definition jobEvent (j : t) : list Effect :=
  [LogInfo (MsgJobEvent (getJob j)); Broadcast (uuid j) (getJob j)].

(** A [bsync] function that nobody waits for, at one of its [bwait]s: it
    has finished, or it resumes in the world and on the job of that later
    time, makes calls, and is again at a [bwait] or finished.  Such a
    function reads the job and assigns nothing. *)
#[local] Unset Elimination Schemes.
Inductive Fiber : Type :=
| Finished
| Awaiting (rest : World -> t -> list Effect * Fiber).
#[local] Set Elimination Schemes.

(** [fsmSettings.error] *)
Definition error (eventName from to : string) (errorCode : Z) (errorMessage : string)
  : JobM Z :=
  u <- gets uuid;;
  let fsmError := FsmError u eventName from to errorCode errorMessage in
  emit (LogError (MsgThrown fsmError));;
  throw fsmError.

(** [fsmSettings.callbacks.onenterstate]: what the callback does up to its
    first [bwait], given back as calls, and the fiber left suspended.  The
    call [findById(self.id)] is made before the callback suspends; the
    argument of [updateAttributes], which is called on the record found,
    [self.fsm.current] and [getJob()] are read after it has resumed. *)
Definition onenterstate_fiber (event from to : string) (j : t) : list Effect * Fiber :=
  let entered := LogInfo (MsgTransition (botUuid j) (uuid j) event from to) in
  if negb (from =? "none")%string then
    if negb (indexOf event "Done" =? -1) then
      ([entered; FindById (id j)],
       (* after [bwait(findById)] and [bwait(Promise.delay(0))] *)
       Awaiting (fun w j1 =>
         match findById w with
         | Found =>
             ([UpdateAttributes (id j) (attributes j1)],
              (* after [bwait(dbJob.updateAttributes)] *)
              Awaiting (fun w j2 =>
                (match updateAttributes w with
                 | None => LogInfo (MsgUpdated event (uuid j2) (current j2))
                 | Some msg => LogInfo (MsgUpdateFailed event (uuid j2) (Rejected msg))
                 end :: jobEvent j2,
                 Finished)))
         | Absent =>
             (LogInfo (MsgUpdateFailed event (uuid j1) (NoProperty "dbJob")) :: jobEvent j1,
              Finished)
         | FindRejected msg =>
             (LogInfo (MsgUpdateFailed event (uuid j1) (Rejected msg)) :: jobEvent j1,
              Finished)
         end))
    else (entered :: jobEvent j, Finished)
  else ([entered], Finished).

(** The callback as the machine calls it: the promise it returns is
    dropped, and with it the fiber. *)
Definition onenterstate (event from to : string) : JobM unit :=
  fun j => (Ret tt, j, fst (onenterstate_fiber event from to j)).

(** The machine made by [StateMachine.create(fsmSettings)]. *)
Definition fsm_map (j : t) : Map := build (initial j) events.

(** [this.fsm.name()], called in the world [w]; what an event does at once
    does not depend on the world, what its callback does later does. *)
Definition fsm (w : World) (name : string) : JobM Z :=
  map <- gets fsm_map;;
  call current set_current error onenterstate NotAFunction map name.

Section WithWorld.
Variable w : World.

(** The handler given to [this.stopwatch.onTime]. *)
Definition onTime : JobM unit :=
  j <- gets (fun j => j);;
  emit (LogInfo (MsgJobEvent (getJob j)));;
  emit (Broadcast (uuid j) (getJob j)).

(** [initialize] *)
Definition initialize : JobM unit :=
  emit CallJobModel;;
  match jobModel w with
  | Some msg => throw (Rejected msg)
  | None => ret tt
  end;;
  b <- gets botUuid;;
  if is_undefined b then throw BotUuidNotDefined
  else
    modify (set_current "none");;
    fsm w "startup";;
    modify (set_stopwatch {| running := false; refTime := 0; ms := 0 |});;
    modify (set_started JUndefined);;
    modify (set_elapsed JUndefined);;
    modify (set_percentComplete 0).

(** The stopwatch looks at the clock: it counts from [refTime] and emits
    [time], on which the handler runs. *)
Definition updateTime : JobM unit :=
  modify (fun j =>
    set_stopwatch {| running := running (stopwatch j);
                     refTime := refTime (stopwatch j);
                     ms := now w - refTime (stopwatch j) |} j);;
  onTime.

(** [this.stopwatch.start()]: the reference time is set back by what was
    counted so far, and the stopwatch looks at the clock at once. *)
Definition stopwatch_start : JobM unit :=
  modify (fun j =>
    set_stopwatch {| running := true;
                     refTime := now w - ms (stopwatch j);
                     ms := ms (stopwatch j) |} j);;
  updateTime.

(** [this.stopwatch.stop()]: a running stopwatch is stopped and looks at
    the clock a last time; a stopped one is left alone. *)
Definition stopwatch_stop : JobM unit :=
  r <- gets (fun j => running (stopwatch j));;
  if r then
    modify (fun j =>
      set_stopwatch {| running := false;
                       refTime := refTime (stopwatch j);
                       ms := ms (stopwatch j) |} j);;
    updateTime
  else ret tt.

(** The interval timer of the stopwatch fires; it is set only while the
    stopwatch runs. *)
Definition tick : JobM unit :=
  r <- gets (fun j => running (stopwatch j));;
  if r then updateTime else ret tt.

(** [this.app.context.bots.botList[this.botUuid]], which each command reads
    after its first event and before its [try]. *)
Definition lookup : JobM (option Handle) :=
  match bots w with
  | NoBotList => throw (NoProperty "botList")
  | BotList bot => ret bot
  end.

(** A call of operation [op] on [bot]. *)
Definition bot_call (bot : option Handle) (op : DevOp) : JobM unit :=
  match bot with
  | None => throw (NoProperty "bot")
  | Some b =>
      emit (BotCommand op);;
      match answer b op with
      | None => ret tt
      | Some msg => throw (Rejected msg)
      end
  end.

(** [start] *)
Definition start : JobM unit :=
  fsm w "start";;
  bot <- lookup;;
  try_catch
    (bot_call bot StartJob;;
     modify (set_started (JNum (now w)));;
     stopwatch_start;;
     fsm w "startDone";;
     ret tt)
    (fun ex =>
       fsm w "startFail";;
       emit (LogError (MsgFailure "start" ex))).

(** [pause] *)
Definition pause : JobM unit :=
  c <- gets current;;
  if (c =? "paused")%string then ret tt
  else
    fsm w "pause";;
    bot <- lookup;;
    try_catch
      (bot_call bot Pause;;
       stopwatch_stop;;
       fsm w "pauseDone";;
       ret tt)
      (fun ex =>
         fsm w "pauseFail";;
         emit (LogError (MsgFailure "pause" ex))).

(** [resume] *)
Definition resume : JobM unit :=
  c <- gets current;;
  if (c =? "running")%string then ret tt
  else
    fsm w "resume";;
    bot <- lookup;;
    try_catch
      (bot_call bot Resume;;
       stopwatch_start;;
       fsm w "resumeDone";;
       ret tt)
      (fun ex =>
         fsm w "resumeFail";;
         emit (LogError (MsgFailure "resume" ex))).

(** [cancel] *)
Definition cancel : JobM unit :=
  fsm w "cancel";;
  bot <- lookup;;
  try_catch
    (try_catch (bot_call bot Cancel)
       (fun ex => emit (LogError (MsgCantCancel ex)));;
     stopwatch_stop;;
     fsm w "cancelDone";;
     ret tt)
    (fun ex =>
       emit (LogError (MsgFailure "stop" ex));;
       fsm w "cancelFail";;
       ret tt).

(** [processCommand] *)
Definition processCommand (command : string) : JobM Projection.t :=
  if (command =? "start")%string then start;; gets getJob
  else if (command =? "pause")%string then pause;; gets getJob
  else if (command =? "resume")%string then resume;; gets getJob
  else if (command =? "cancel")%string then cancel;; gets getJob
  else throw (NotSupported command).

End WithWorld.

(** *** Reading a trace *)

(** The calls on the persistence port (the [JobModel]). *)
Definition is_persistence (e : Effect) : bool :=
  match e with
  | FindById _ | UpdateAttributes _ _ => true
  | _ => false
  end.

(** The calls on the broadcast port ([app.io.broadcast]). *)
Definition is_broadcast (e : Effect) : bool :=
  match e with
  | Broadcast _ _ => true
  | _ => false
  end.

(** The calls on the device handle. *)
Definition is_device (e : Effect) : bool :=
  match e with
  | BotCommand _ => true
  | _ => false
  end.

Definition is_start_command (e : Effect) : bool :=
  match e with
  | BotCommand StartJob => true
  | _ => false
  end.

(** The calls on the two ports, in the order they were made. *)
Definition ports (tr : list Effect) : list Effect :=
  filter (fun e => is_persistence e || is_broadcast e) tr.

(** The transitions the machine made, as [onenterstate] logged them on
    entry: (event, from, to). *)
Fixpoint transitions (tr : list Effect) : list (string * string * string) :=
  match tr with
  | [] => []
  | LogInfo (MsgTransition _ _ event from to) :: tr' => (event, from, to) :: transitions tr'
  | _ :: tr' => transitions tr'
  end.

(** The transitions that enter a state, as (event, from, to), by what
    [onenterstate] does for them: those whose event name contains [Done],
    and the others (the entries into the four in-flight states and the
    transitions [startFail], [pauseFail], [resumeFail] and [cancelFail]). *)
Definition persisted_transitions : list (string * string * string) :=
  [ ("startDone", "starting", "running");
    ("pauseDone", "pausing", "paused");
    ("resumeDone", "resuming", "running");
    ("runningDone", "running", "complete") ].

Definition broadcast_only_transitions : list (string * string * string) :=
  [ ("start", "ready", "starting");
    ("pause", "running", "pausing");
    ("resume", "paused", "resuming");
    ("cancel", "running", "canceling");
    ("cancel", "paused", "canceling");
    ("cancel", "starting", "canceling");
    ("cancel", "pausing", "canceling");
    ("cancel", "resuming", "canceling");
    ("startFail", "starting", "ready");
    ("pauseFail", "pausing", "running");
    ("resumeFail", "resuming", "paused");
    ("cancelFail", "canceling", "canceled") ].

(** The registry has a bot list, so that the lookup of the handle does not
    throw. *)
Definition has_bot_list (w : World) : bool :=
  match bots w with
  | NoBotList => false
  | BotList _ => true
  end.

(** The device operation [op] is answered without failure in world [w]. *)
Definition device_ok (w : World) (op : DevOp) : bool :=
  match bots w with
  | BotList (Some b) => match answer b op with None => true | Some _ => false end
  | _ => false
  end.

(** The call of the device operation [op] throws inside the [try]: the
    device fails it, or the bot list holds no handle to call it on. *)
Definition device_fails (w : World) (op : DevOp) : bool :=
  match bots w with
  | BotList (Some b) => match answer b op with None => false | Some _ => true end
  | BotList None => true
  | NoBotList => false
  end.

(** The rows given to [create]: the [startup] row and [fsmSettings.events]. *)
Definition table (j : t) : list Event :=
  {| name := "startup"; from := One "none"; to := initial j |} :: events.

(** *** Histories of a job

    What happens to a job after [initialize]: commands, events fired on its
    machine by the device handle (such as [runningDone]), ticks of its
    stopwatch, and updates of [percentComplete] by the device handle.  The
    fibers of [onenterstate] that resume in between only read the job, and
    are no step of its history. *)
Inductive Step : Type :=
| Command (w : World) (command : string)
| Fire (w : World) (name : string)
| Tick (w : World)
| Progress (p : Z).

Definition step (s : Step) (j : t) : t :=
  match s with
  | Command w command => state_of (processCommand w command j)
  | Fire w name => state_of (fsm w name j)
  | Tick w => state_of (tick w j)
  | Progress p => set_percentComplete p j
  end.

Fixpoint run (h : list Step) (j : t) : t :=
  match h with
  | [] => j
  | s :: h' => run h' (step s j)
  end.

(** The step called the start operation of the device and the device
    answered without failure. *)
Definition start_succeeded (s : Step) (j : t) : bool :=
  match s with
  | Command w command =>
      existsb is_start_command (trace_of (processCommand w command j))
      && device_ok w StartJob
  | _ => false
  end.

(** The job has no start time. *)
Definition unstarted (j : t) : Prop := started j = JUndefined.

(** No step of the history is a successful start. *)
Fixpoint never_started (h : list Step) (j : t) : bool :=
  match h with
  | [] => true
  | s :: h' => negb (start_succeeded s j) && never_started h' (step s j)
  end.

(** *** The table as rows, and kinds of states *)

(** The rows of the table given to [create], one for each state a row
    lists: (event, from, to). *)
Definition rows (j : t) : list (string * string * string) :=
  flat_map (fun e => map (fun f => (name e, f, target e f)) (from_array e)) (table j).

(** The commands of [processCommand]. *)
Definition supported : list string := ["start"; "pause"; "resume"; "cancel"].

(** The states in which no command is in flight, the two of them that no
    row leaves, and the states that the table never leads back to [ready]
    from. *)
Definition settled : list string :=
  ["ready"; "running"; "paused"; "canceled"; "complete"].

Definition terminal : list string := ["canceled"; "complete"].

Definition past_start : list string :=
  ["running"; "pausing"; "paused"; "resuming"; "canceling"; "canceled"; "complete"].

(** The calls made on the device handle, in order. *)
Definition device_calls (tr : list Effect) : list Effect := filter is_device tr.

(** A step other than an event fired on the machine from outside. *)
Definition own_step (s : Step) : bool :=
  match s with
  | Fire _ _ => false
  | _ => true
  end.

(** A step that is no command in a registry without a bot list. *)
Definition listed (s : Step) : bool :=
  match s with
  | Command w _ => has_bot_list w
  | _ => true
  end.

(** The stopwatch is on exactly when the job is [running]. *)
Definition clocked (j : t) : Prop :=
  running (stopwatch j) = (current j =? "running")%string.

(** [this.elapsed] has never been assigned. *)
Definition no_elapsed (j : t) : Prop := elapsed j = JUndefined.

(** Two worlds that differ at most in what the database answers. *)
Definition same_device (w w' : World) : Prop := bots w = bots w' /\ now w = now w'.


End Job.

(* ------------------------------------------------------------------ *)
(** ** The device registry ([Bots]) *)

Module Bots.

(** The columns of a bot record, which are also the [botSettings] given to
    [new Bot]. *)
Record Settings : Type := {
  port : string;
  name : string;
  jogXSpeed : string;
  jogYSpeed : string;
  jogZSpeed : string;
  jogESpeed : string;
  tempE : string;
  tempB : string;
  speedRatio : string;
  eRatio : string;
  offsetX : string;
  offsetY : string;
  offsetZ : string
}.

(** [new Bot(app, botSettings)]: the handle, of which only the settings it
    was made from matter here. *)
Record Bot : Type := { settings : Settings }.

(** The operations of the collaborators that may throw: setting up the
    routes, building the bot model, reading the records, creating one, and
    reading the directory of the discovery plugins. *)
Inductive Op : Type := Routes | BotModel | FindAll | Create | Discovery.

Record World : Type := {
  (** the failure message of each operation, [None] when it succeeds *)
  fails : Op -> option string;
  (** the files of the discovery directory, each with the message thrown
      when its plugin is loaded and made, [None] when that succeeds *)
  discoveryTypes : list (string * option string)
}.

Inductive LogMsg : Type :=
| MsgInitialized
| MsgInitializationError (ex : string)
| MsgRouterSetup
| MsgRouterError (ex : string)
| MsgDiscovery (discoveryType : string).

Inductive Effect : Type :=
| LogInfo (m : LogMsg)
| LogError (m : LogMsg)
| CallFindAll
| CallCreate (s : Settings)
| NewBot (s : Settings)
(** [fs.readdir(discoveryDirectory)] *)
| SetupDiscovery
(** [new DiscoveryClass(app)] and [discoveryObject.initialize()] *)
| Discover (discoveryType : string).

(** The registry object together with the bots table it reads and writes. *)
Record t : Type := {
  (** the rows of the bots table *)
  records : list Settings;
  (** [this.bots], keyed by port *)
  bots : list (string * Bot)
}.

Definition BotsM : Type -> Type := M t string Effect.

(** The constructor sets [this.bots = {}]; [rows] is what the bots table
    holds at that time. *)
Definition new (rows : list Settings) : t := {| records := rows; bots := [] |}.

Definition initialBotObject : Settings :=
  {| port := "null";
     name := "Default";
     jogXSpeed := "2000";
     jogYSpeed := "2000";
     jogZSpeed := "1000";
     jogESpeed := "120";
     tempE := "200";
     tempB := "60";
     speedRatio := "1.0";
     eRatio := "1.0";
     offsetX := "0";
     offsetY := "0";
     offsetZ := "0" |}.

Section WithWorld.
Variable w : World.

Definition attempt (op : Op) : BotsM unit :=
  match fails w op with
  | None => ret tt
  | Some msg => throw msg
  end.

(** Modelled from the spec: the bot model [./model/bot] built by
    [botModel(app)] is not among the sources.  It is the device part of the
    Persistence Port, [findAllDeviceRecords() -> list] and
    [createDeviceRecord(config) -> record]: [findAll] answers every record
    of the table, [create] adds one record holding the configuration given. *)
Definition findAll : BotsM (list Settings) :=
  emit CallFindAll;;
  attempt FindAll;;
  gets records.

Definition create (s : Settings) : BotsM unit :=
  emit (CallCreate s);;
  attempt Create;;
  modify (fun r => {| records := records r ++ [s]; bots := bots r |}).

(** [setupRouter]: it logs its own failure and does not pass it on. *)
Definition setupRouter : BotsM unit :=
  try_catch
    (attempt Routes;;
     emit (LogInfo MsgRouterSetup))
    (fun ex => emit (LogError (MsgRouterError ex))).

(** [setupDiscovery]: every file of the directory that is not a source map
    is loaded as a plugin, which is made, initialized and logged. *)
Definition setupDiscovery : BotsM unit :=
  emit SetupDiscovery;;
  attempt Discovery;;
  for_of (discoveryTypes w)
    (fun entry =>
       let discoveryType := fst entry in
       if indexOf discoveryType ".map" =? -1 then
         emit (Discover discoveryType);;
         match snd entry with
         | Some msg => throw msg
         | None => ret tt
         end;;
         emit (LogInfo (MsgDiscovery (before_dot discoveryType)))
       else ret tt).

(** [initialize] *)
Definition initialize : BotsM unit :=
  try_catch
    (setupRouter;;
     attempt BotModel;;
     botsDbArray <- findAll;;
     botsDbArray <-
       (if (Z.of_nat (length botsDbArray) =? 0)
        then create initialBotObject;; findAll
        else ret botsDbArray);;
     for_of botsDbArray
       (fun dbBot =>
          let botSettings :=
            {| port := port dbBot; name := name dbBot;
               jogXSpeed := jogXSpeed dbBot; jogYSpeed := jogYSpeed dbBot;
               jogZSpeed := jogZSpeed dbBot; jogESpeed := jogESpeed dbBot;
               tempE := tempE dbBot; tempB := tempB dbBot;
               speedRatio := speedRatio dbBot; eRatio := eRatio dbBot;
               offsetX := offsetX dbBot; offsetY := offsetY dbBot;
               offsetZ := offsetZ dbBot |} in
          emit (NewBot botSettings);;
          modify (fun r =>
            {| records := records r;
               bots := assign (port botSettings)
                         {| settings := botSettings |} (bots r) |}));;
     setupDiscovery;;
     emit (LogInfo MsgInitialized))
    (fun ex => emit (LogError (MsgInitializationError ex))).

End WithWorld.

(** The calls that read or write the bots table or make a handle. *)
Definition is_record_call (e : Effect) : bool :=
  match e with
  | CallFindAll | CallCreate _ | NewBot _ => true
  | _ => false
  end.


(** The handle that [initialize] makes from a record. *)
Definition handle_of (dbBot : Settings) : Bot :=
  {| settings :=
       {| port := port dbBot; name := name dbBot;
          jogXSpeed := jogXSpeed dbBot; jogYSpeed := jogYSpeed dbBot;
          jogZSpeed := jogZSpeed dbBot; jogESpeed := jogESpeed dbBot;
          tempE := tempE dbBot; tempB := tempB dbBot;
          speedRatio := speedRatio dbBot; eRatio := eRatio dbBot;
          offsetX := offsetX dbBot; offsetY := offsetY dbBot;
          offsetZ := offsetZ dbBot |} |}.

Definition is_create (e : Effect) : bool :=
  match e with
  | CallCreate _ => true
  | _ => false
  end.

Definition is_new_bot (e : Effect) : bool :=
  match e with
  | NewBot _ => true
  | _ => false
  end.

Definition is_error (e : Effect) : bool :=
  match e with
  | LogError _ => true
  | _ => false
  end.

(** What [setupRouter] logs. *)
Definition router_log (w : World) : Effect :=
  match fails w Routes with
  | None => LogInfo MsgRouterSetup
  | Some ex => LogError (MsgRouterError ex)
  end.

(** The calls made for a discovery plugin. *)
Definition is_discovery_call (e : Effect) : bool :=
  match e with
  | Discover _ | LogInfo (MsgDiscovery _) => true
  | _ => false
  end.

(** The two logs that end [initialize]. *)
Definition is_outcome (e : Effect) : bool :=
  match e with
  | LogInfo MsgInitialized | LogError (MsgInitializationError _) => true
  | _ => false
  end.

(** The message of the first plugin that fails, of the files that are not
    source maps. *)
Fixpoint plugin_failure (l : list (string * option string)) : option string :=
  match l with
  | [] => None
  | entry :: l' =>
      if indexOf (fst entry) ".map" =? -1 then
        match snd entry with
        | Some msg => Some msg
        | None => plugin_failure l'
        end
      else plugin_failure l'
  end.

(** The message of the first failure that [initialize] meets on the
    registry [r], if it meets one: of the bot model, of the reading of the
    records, of the creation of the default record when there is no
    record, of the reading of the plugin directory, of a plugin. *)
Definition first_failure (w : World) (r : t) : option string :=
  match fails w BotModel, fails w FindAll with
  | Some ex, _ => Some ex
  | None, Some ex => Some ex
  | None, None =>
      match records r, fails w Create with
      | [], Some ex => Some ex
      | _, _ =>
          match fails w Discovery with
          | Some ex => Some ex
          | None => plugin_failure (discoveryTypes w)
          end
      end
  end.

(** The log that ends [initialize]. *)
Definition outcome (w : World) (r : t) : Effect :=
  match first_failure w r with
  | None => LogInfo MsgInitialized
  | Some ex => LogError (MsgInitializationError ex)
  end.


End Bots.

(* ------------------------------------------------------------------ *)
(** ** Concrete jobs and worlds, used as instances of the theorems *)

Module Sample.

Import Job.

Definition params : JobParams.t :=
  {| JobParams.botUuid := JStr "bot-1";
     JobParams.fileUuid := JStr "file-1";
     JobParams.initialState := None;
     JobParams.id := JNum 7;
     JobParams.jobUuid := JUndefined |}.

(** A device that answers every operation, and one that fails them all. *)
Definition obedient : Handle :=
  {| startJob := None; commands_pause := None;
     commands_resume := None; commands_cancel := None |}.

Definition broken : Handle :=
  {| startJob := Some "no answer"; commands_pause := Some "no answer";
     commands_resume := Some "no answer"; commands_cancel := Some "no answer" |}.

Definition fine : World :=
  {| jobModel := None; bots := BotList (Some obedient);
     findById := Found; updateAttributes := None; now := 1000 |}.

Definition faulty : World :=
  {| jobModel := None; bots := BotList (Some broken);
     findById := Found; updateAttributes := None; now := 1000 |}.

(** A database that has lost the record of the job. *)
Definition forgetful : World :=
  {| jobModel := None; bots := BotList (Some obedient);
     findById := Absent; updateAttributes := None; now := 1000 |}.

(** The world of the [Bots] class above, which has no [botList]; and the
    world with a working device half a second and three seconds later. *)
Definition unlisted : World :=
  {| jobModel := None; bots := NoBotList;
     findById := Found; updateAttributes := None; now := 1000 |}.

Definition later : World :=
  {| jobModel := None; bots := BotList (Some obedient);
     findById := Found; updateAttributes := None; now := 1500 |}.

Definition latest : World :=
  {| jobModel := None; bots := BotList (Some obedient);
     findById := Found; updateAttributes := None; now := 4000 |}.

(** The job after [initialize], in state [ready]. *)
Definition ready : t := state_of (initialize fine (new "job-1" params)).

Definition in_state (s : string) : t := set_current s ready.

(** The job after a successful start. *)
Definition started_job : t := state_of (processCommand fine "start" ready).

(** A history without a successful start: the device fails the start, the
    stopwatch ticks, the device reports progress, and a pause is refused. *)
Definition history : list Step :=
  [ Command faulty "start"; Tick fine; Progress 5; Command fine "pause" ].

(** A registry whose collaborators all work and which has two discovery
    plugins and a source map, one without any plugin directory, one without
    a table, one that cannot write, and one without routes. *)
Definition plugins : list (string * option string) :=
  [ ("usb.js", None); ("usb.js.map", None); ("lan.js", None) ].

Definition reliable : Bots.World :=
  {| Bots.fails := fun _ => None; Bots.discoveryTypes := plugins |}.

Definition no_discovery : Bots.World :=
  {| Bots.fails := fun op =>
       match op with Bots.Discovery => Some "no plugin" | _ => None end;
     Bots.discoveryTypes := [] |}.

Definition no_table : Bots.World :=
  {| Bots.fails := fun op =>
       match op with Bots.FindAll => Some "no such table" | _ => None end;
     Bots.discoveryTypes := plugins |}.

Definition read_only : Bots.World :=
  {| Bots.fails := fun op =>
       match op with Bots.Create => Some "read only" | _ => None end;
     Bots.discoveryTypes := plugins |}.

Definition no_routes : Bots.World :=
  {| Bots.fails := fun op =>
       match op with Bots.Routes => Some "no routes" | _ => None end;
     Bots.discoveryTypes := plugins |}.

(** A record on a serial port. *)
Definition serial : Bots.Settings :=
  {| Bots.port := "/dev/ttyACM0"; Bots.name := "Serial";
     Bots.jogXSpeed := "2000"; Bots.jogYSpeed := "2000"; Bots.jogZSpeed := "1000";
     Bots.jogESpeed := "120"; Bots.tempE := "200"; Bots.tempB := "60";
     Bots.speedRatio := "1.0"; Bots.eRatio := "1.0";
     Bots.offsetX := "0"; Bots.offsetY := "0"; Bots.offsetZ := "0" |}.

End Sample.

(* ------------------------------------------------------------------ *)
(** ** What a computation keeps *)

Section Preserves.
Context {St Ex Ev : Type} (P : St -> Prop).

Lemma preserves_ret {A} (a : A) : preserves P (ret a : M St Ex Ev A).
Proof. intros s H. exact H. Qed.

Lemma preserves_throw {A} (e : Ex) : preserves P (throw e : M St Ex Ev A).
Proof. intros s H. exact H. Qed.

Lemma preserves_emit (ev : Ev) : preserves P (emit ev : M St Ex Ev unit).
Proof. intros s H. exact H. Qed.

Lemma preserves_gets {A} (f : St -> A) : preserves P (gets f : M St Ex Ev A).
Proof. intros s H. exact H. Qed.

Lemma preserves_modify (f : St -> St) :
  (forall s, P s -> P (f s)) -> preserves P (modify f : M St Ex Ev unit).
Proof. intros Hf s H. apply Hf, H. Qed.

Lemma preserves_bind {A B} (m : M St Ex Ev A) (f : A -> M St Ex Ev B) :
  preserves P m -> (forall a, preserves P (f a)) -> preserves P (bind m f).
Proof.
  intros Hm Hf s H. unfold bind. specialize (Hm s H).
  destruct (m s) as [[[a | e] s1] t1]; unfold state_of in *; cbn [fst snd] in *.
  - specialize (Hf a s1 Hm). destruct (f a s1) as [[r s2] t2]. exact Hf.
  - exact Hm.
Qed.

Lemma preserves_try_catch {A} (m : M St Ex Ev A) (h : Ex -> M St Ex Ev A) :
  preserves P m -> (forall e, preserves P (h e)) -> preserves P (try_catch m h).
Proof.
  intros Hm Hh s H. unfold try_catch. specialize (Hm s H).
  destruct (m s) as [[[a | e] s1] t1]; unfold state_of in *; cbn [fst snd] in *.
  - exact Hm.
  - specialize (Hh e s1 Hm). destruct (h e s1) as [[r s2] t2]. exact Hh.
Qed.

End Preserves.

(** ** When two computations agree *)

Section Agree.
Context {St Ex Ev : Type}.

Lemma agree_refl {A} (m : M St Ex Ev A) : agree m m.
Proof. intros s. split; reflexivity. Qed.

Lemma agree_bind {A B} (m m' : M St Ex Ev A) (f f' : A -> M St Ex Ev B) :
  agree m m' -> (forall a, agree (f a) (f' a)) -> agree (bind m f) (bind m' f').
Proof.
  intros Hm Hf s. unfold bind. destruct (Hm s) as [Hr Hs].
  destruct (m s) as [[r1 s1] t1], (m' s) as [[r1' s1'] t1'].
  unfold result_of, state_of in *. cbn [fst snd] in *. subst r1' s1'.
  destruct r1 as [a | e]; [| split; reflexivity].
  destruct (Hf a s1) as [Hr Hs].
  destruct (f a s1) as [[r2 s2] t2], (f' a s1) as [[r2' s2'] t2'].
  cbn [fst snd] in *. split; assumption.
Qed.

Lemma agree_try_catch {A} (m m' : M St Ex Ev A) (h h' : Ex -> M St Ex Ev A) :
  agree m m' -> (forall e, agree (h e) (h' e)) -> agree (try_catch m h) (try_catch m' h').
Proof.
  intros Hm Hh s. unfold try_catch. destruct (Hm s) as [Hr Hs].
  destruct (m s) as [[r1 s1] t1], (m' s) as [[r1' s1'] t1'].
  unfold result_of, state_of in *. cbn [fst snd] in *. subst r1' s1'.
  destruct r1 as [a | e]; [split; reflexivity |].
  destruct (Hh e s1) as [Hr Hs].
  destruct (h e s1) as [[r2 s2] t2], (h' e s1) as [[r2' s2'] t2'].
  cbn [fst snd] in *. split; assumption.
Qed.

End Agree.

Create HintDb keeps discriminated.

(** Walk through a computation, splitting its tests. *)
Ltac keeps :=
  repeat first
    [ solve [auto with keeps nocore]
    | apply preserves_ret | apply preserves_throw | apply preserves_emit
    | apply preserves_gets
    | apply preserves_bind | apply preserves_try_catch
    | apply preserves_modify; let H := fresh in intros ? H; exact H
    | match goal with
      | |- forall _, _ => intro
      | |- preserves _ (if ?b then _ else _) => destruct b
      | |- preserves _ (match ?x with _ => _ end) => destruct x
      end ].

(* ------------------------------------------------------------------ *)
(** ** Properties of the state machine library *)

Module StateMachineProperties.

Import StateMachine.

Lemma aget_aset_same {V} (k : string) (v : V) (l : list (string * V)) :
  aget k (aset k v l) = Some v.
Proof.
  induction l as [| [k' v'] l IH]; cbn [aset aget].
  - rewrite String.eqb_refl. reflexivity.
  - destruct (String.eqb_spec k' k) as [E | E]; cbn [aget].
    + rewrite String.eqb_refl. reflexivity.
    + destruct (String.eqb_spec k' k); [contradiction | exact IH].
Qed.

Lemma aget_aset_other {V} (k k' : string) (v : V) (l : list (string * V)) :
  k <> k' -> aget k' (aset k v l) = aget k' l.
Proof.
  intros Hn. induction l as [| [k0 v0] l IH]; cbn [aset aget].
  - destruct (String.eqb_spec k k'); [contradiction | reflexivity].
  - destruct (String.eqb_spec k0 k) as [E | E]; cbn [aget].
    + subst k0. destruct (String.eqb_spec k k'); [contradiction | reflexivity].
    + rewrite IH. reflexivity.
Qed.

Lemma defined_aget_aset {V} (k k' : string) (v : V) (l : list (string * V)) :
  defined (aget k' (aset k v l)) = ((k =? k')%string || defined (aget k' l))%bool.
Proof.
  destruct (String.eqb_spec k k') as [E | E].
  - subst. rewrite aget_aset_same. reflexivity.
  - rewrite aget_aset_other by exact E. reflexivity.
Qed.

(** The states listed by a row are the ones it adds to the transitions of
    its event. *)
Lemma defined_fold_aset (g : string -> string) (fs : list string) :
  forall (m : Transitions) (f : string),
    defined (aget f (fold_left (fun m f' => aset f' (g f') m) fs m))
    = (existsb (fun f' => (f' =? f)%string) fs || defined (aget f m))%bool.
Proof.
  induction fs as [| a fs IH]; intros m f; cbn [fold_left existsb].
  - reflexivity.
  - rewrite IH, defined_aget_aset.
    destruct (a =? f)%string, (existsb (fun f' => (f' =? f)%string) fs),
      (defined (aget f m)); reflexivity.
Qed.

Lemma transitions_of_add (map : Map) (e : Event) (n : string) :
  transitions_of (add map e) n
  = if (name e =? n)%string
    then fold_left (fun m f => aset f (target e f) m) (from_array e)
           (transitions_of map (name e))
    else transitions_of map n.
Proof.
  unfold transitions_of, add.
  destruct (String.eqb_spec (name e) n) as [E | E].
  - subst n. rewrite aget_aset_same. reflexivity.
  - rewrite aget_aset_other by exact E. reflexivity.
Qed.

(** The method of an event exists exactly when a row bears its name. *)
Lemma method_iff_event (rows : list Event) :
  forall (map : Map) (n : string),
    defined (aget n (fold_left add rows map))
    = (is_event rows n || defined (aget n map))%bool.
Proof.
  induction rows as [| e rows IH]; intros map n; cbn [fold_left is_event existsb].
  - reflexivity.
  - fold (is_event rows n). rewrite IH. unfold add at 1. rewrite defined_aget_aset.
    destruct (name e =? n)%string, (is_event rows n), (defined (aget n map)); reflexivity.
Qed.

(** The transitions of an event list a state exactly when a row of that
    name lists it. *)
Lemma transition_iff_row (rows : list Event) :
  forall (map : Map) (n f : string),
    defined (aget f (transitions_of (fold_left add rows map) n))
    = (has_row rows n f || defined (aget f (transitions_of map n)))%bool.
Proof.
  induction rows as [| e rows IH]; intros map n f; cbn [fold_left has_row existsb].
  - reflexivity.
  - fold (has_row rows n f). rewrite IH, transitions_of_add.
    destruct (String.eqb_spec (name e) n) as [E | E]; cbn [andb orb].
    + subst n. rewrite defined_fold_aset.
      destruct (existsb (fun f' => (f' =? f)%string) (from_array e)), (has_row rows (name e) f),
        (defined (aget f (transitions_of map (name e)))); reflexivity.
    + reflexivity.
Qed.

Lemma can_defined (m : Transitions) (f : string) :
  can m f = (defined (aget f m) || defined (aget WILDCARD m))%bool.
Proof.
  unfold can. destruct (aget f m); [reflexivity |].
  destruct (aget WILDCARD m); reflexivity.
Qed.

End StateMachineProperties.


(* ------------------------------------------------------------------ *)
(** ** Properties of the job *)

Module JobProperties.

Import StateMachine Job.

(** Case analysis on what the collaborators answer. *)
Ltac split_world w :=
  let s := fresh "s" in
  let p := fresh "p" in
  let r := fresh "r" in
  let c := fresh "c" in
  let f := fresh "f" in
  let ua := fresh "ua" in
  let n := fresh "n" in
  let jm := fresh "jm" in
  destruct w as [jm [| [[s p r c] |]] f ua n];
  [ | destruct s, p, r, c | ].


(** Choose the member of a list that is the one asked for. *)
Ltac pick := cbn [In]; repeat first [left; reflexivity | right].

Ltac in_cases H :=
  cbn [In cancelable] in H;
  repeat (destruct H as [H | H]; [ try (inversion H; clear H); subst | ]);
  try contradiction.

(** The transition map that [create] builds from the table. *)
Lemma fsm_map_eq (j : t) :
  fsm_map j =
  [ ("startup", [("none", if (initial j =? "")%string then "none" else initial j)]);
    ("start", [("ready", "starting")]);
    ("startFail", [("starting", "ready")]);
    ("startDone", [("starting", "running")]);
    ("pause", [("running", "pausing"); ("paused", "paused")]);
    ("pauseFail", [("pausing", "running")]);
    ("pauseDone", [("pausing", "paused")]);
    ("resume", [("paused", "resuming"); ("running", "running")]);
    ("resumeFail", [("resuming", "paused")]);
    ("resumeDone", [("resuming", "running")]);
    ("runningDone", [("running", "complete")]);
    ("cancel", [("running", "canceling"); ("paused", "canceling");
                ("starting", "canceling"); ("pausing", "canceling");
                ("resuming", "canceling")]);
    ("cancelFail", [("canceling", "canceled")]) ].
Proof. reflexivity. Qed.

(** An event method called in a state that its transitions do not list runs
    the [error] hook: the error is logged, thrown, and nothing else happens. *)
Lemma fsm_cannot (w : World) (j : t) (name : string) (m : Transitions) :
  aget name (fsm_map j) = Some m ->
  can m (current j) = false ->
  let e := FsmError (uuid j) name (current j) (current j) INVALID_TRANSITION
             ("event " ++ name ++ " inappropriate in current state " ++ current j)%string in
  fsm w name j = (Throw e, j, [LogError (MsgThrown e)]).
Proof.
  intros Hm Hcan. unfold fsm, call, bind, gets at 1.
  rewrite Hm. unfold buildEvent, bind, gets.
  rewrite Hcan. cbn [negb].
  assert (Hd : destination m (current j) = current j).
  { unfold can in Hcan. unfold destination.
    destruct (aget (current j) m); [discriminate|].
    destruct (aget WILDCARD m); [discriminate|reflexivity]. }
  rewrite Hd. reflexivity.
Qed.

(** [start] outside [ready]: the [start] event is refused and [start] stops
    there. *)
Lemma start_refused (w : World) (j : t) :
  current j <> "ready" ->
  let e := FsmError (uuid j) "start" (current j) (current j) INVALID_TRANSITION
             ("event start inappropriate in current state " ++ current j)%string in
  start w j = (Throw e, j, [LogError (MsgThrown e)]).
Proof.
  intros Hc. cbv zeta. unfold start. unfold bind at 1.
  rewrite (fsm_cannot w j "start" [("ready", "starting")]).
  - reflexivity.
  - rewrite fsm_map_eq. reflexivity.
  - unfold can. cbn [aget WILDCARD].
    destruct (String.eqb_spec "ready" (current j)) as [E|E]; [congruence|reflexivity].
Qed.

(** Turning boolean facts about the table into equations. *)
Ltac bool_hyps :=
  repeat match goal with
    | H : (_ || _) = true |- _ => apply orb_true_iff in H; destruct H as [H | H]
    | H : (_ && _) = true |- _ => apply andb_true_iff in H; destruct H as [? H]
    | H : (_ || _) = false |- _ => apply orb_false_iff in H; destruct H as [? H]
    | H : (?a =? ?b)%string = true |- _ => apply String.eqb_eq in H; subst
    | H : false = true |- _ => discriminate H
    | H : true = false |- _ => discriminate H
    end.

(** The pairs (event, state) for which the table has a row. *)
Lemma has_row_events (name from : string) :
  has_row events name from = true ->
  In (name, from)
    [ ("start", "ready"); ("startFail", "starting"); ("startDone", "starting");
      ("pause", "running"); ("pause", "paused"); ("pauseFail", "pausing");
      ("pauseDone", "pausing"); ("resume", "paused"); ("resume", "running");
      ("resumeFail", "resuming"); ("resumeDone", "resuming");
      ("runningDone", "running"); ("cancel", "running"); ("cancel", "paused");
      ("cancel", "starting"); ("cancel", "pausing"); ("cancel", "resuming");
      ("cancelFail", "canceling") ].
Proof.
  intros H.
  cbn [has_row events existsb StateMachine.name from_array StateMachine.from cancelable] in H.
  change (("ready" =? "")%string) with false in H.
  change (("starting" =? "")%string) with false in H.
  change (("running" =? "")%string) with false in H.
  change (("paused" =? "")%string) with false in H.
  change (("pausing" =? "")%string) with false in H.
  change (("resuming" =? "")%string) with false in H.
  change (("canceling" =? "")%string) with false in H.
  cbn [existsb] in H.
  bool_hyps; cbn [In]; tauto.
Qed.

(** C6.  [pause] on a job that is already [paused] does nothing: the command
    answers the projection of the unchanged job and the trace of calls is
    empty, so the device is not called and nothing is broadcast. *)
Theorem pause_when_paused_is_noop (w : World) (j : t) :
  current j = "paused" ->
  processCommand w "pause" j = (Ret (getJob j), j, []).
Proof.
  intros Hc. unfold processCommand. cbn [String.eqb Ascii.eqb Bool.eqb].
  unfold bind at 1. unfold pause. unfold bind at 1. unfold gets at 1.
  rewrite Hc. reflexivity.
Qed.

Lemma pause_when_paused_witness :
  current (Sample.in_state "paused") = "paused" /\
  processCommand Sample.fine "pause" (Sample.in_state "paused")
  = (Ret (getJob (Sample.in_state "paused")), Sample.in_state "paused", []).
Proof.
  split; [reflexivity | apply pause_when_paused_is_noop; reflexivity].
Defined.

(** C7.  In any state other than [ready] the [start] command is rejected:
    it throws the invalid-transition error, which has been logged, the job is
    unchanged, and the device handle has not been called. *)
Theorem start_outside_ready_is_rejected (w : World) (j : t) :
  current j <> "ready" ->
  let r := processCommand w "start" j in
  let e := FsmError (uuid j) "start" (current j) (current j) INVALID_TRANSITION
             ("event start inappropriate in current state " ++ current j)%string in
  result_of r = Throw e /\
  state_of r = j /\
  trace_of r = [LogError (MsgThrown e)] /\
  existsb is_device (trace_of r) = false.
Proof.
  intros Hc r e.
  assert (E : r = (Throw e, j, [LogError (MsgThrown e)])).
  { subst r. unfold processCommand. cbn [String.eqb Ascii.eqb Bool.eqb].
    unfold bind. rewrite (start_refused w j Hc). reflexivity. }
  rewrite E. split; [|split; [|split]]; reflexivity.
Qed.

Lemma start_outside_ready_witness :
  current (Sample.in_state "running") <> "ready" /\
  existsb is_device
    (trace_of (processCommand Sample.fine "start" (Sample.in_state "running"))) = false.
Proof.
  split.
  - vm_compute. discriminate.
  - apply (start_outside_ready_is_rejected Sample.fine (Sample.in_state "running")).
    vm_compute. discriminate.
Defined.











(** C4.  When the device cancel does not fail, [cancel] still calls
    [fsm.cancelDone], for which the table has no row: the call throws, the
    error is caught and logged inside [cancel], and the machine reaches
    [canceled] through the [cancelFail] event from [canceling]. *)
Theorem cancel_success_goes_through_cancelFail (w : World) (j : t) :
  In (current j) cancelable ->
  device_ok w Cancel = true ->
  let r := cancel w j in
  is_event (table j) "cancelDone" = false /\
  (forall j', fsm w "cancelDone" j' = (Throw (NotAFunction "cancelDone"), j', [])) /\
  result_of r = Ret tt /\
  In (LogError (MsgFailure "stop" (NotAFunction "cancelDone"))) (trace_of r) /\
  transitions (trace_of r)
  = [("cancel", current j, "canceling"); ("cancelFail", "canceling", "canceled")] /\
  current (state_of r) = "canceled".
Proof.
  intros Hc Hd r. split; [reflexivity|]. split; [reflexivity|]. subst r.
  destruct j as [bu fu u ini i c [on rt m] st el pc]. cbn [current] in Hc |- *.
  in_cases Hc; split_world w; try discriminate Hd; destruct on;
    cbv -[Z.sub Z.add]; intuition.
Qed.

Lemma cancel_success_goes_through_cancelFail_witness :
  transitions (trace_of (cancel Sample.fine (Sample.in_state "running")))
  = [("cancel", "running", "canceling"); ("cancelFail", "canceling", "canceled")].
Proof.
  apply (cancel_success_goes_through_cancelFail Sample.fine (Sample.in_state "running")).
  - unfold cancelable. pick.
  - reflexivity.
Defined.


(** Entering a state from [none] is only logged. *)
Lemma onenterstate_from_none (event to : string) (j : t) :
  onenterstate event "none" to j
  = (Ret tt, j, [LogInfo (MsgTransition (botUuid j) (uuid j) event "none" to)]).
Proof. reflexivity. Qed.

Lemma startup_only_logs (w : World) (j : t) :
  current j = "none" ->
  ports (trace_of (fsm w "startup" j)) = [].
Proof.
  intros Hc. unfold fsm, bind, gets at 1. rewrite fsm_map_eq.
  set (t0 := if (initial j =? "")%string then "none" else initial j).
  change (call current set_current error onenterstate NotAFunction _ "startup")
    with (buildEvent current set_current error onenterstate "startup" [("none", t0)]).
  unfold buildEvent, bind, gets, modify, doCallback, try_catch. rewrite Hc.
  change (can [("none", t0)] "none") with true. cbn [negb].
  destruct ("none" =? destination [("none", t0)] "none")%string; [reflexivity|].
  rewrite onenterstate_from_none. reflexivity.
Qed.

Lemma initialize_ports (w : World) (generated : string) (jobParams : JobParams.t) :
  ports (trace_of (initialize w (new generated jobParams))) = [].
Proof.
  unfold initialize. destruct (jobModel w) as [msg |]; [reflexivity |].
  unfold bind at 1. unfold emit at 1. unfold bind at 1. unfold ret at 1.
  unfold bind at 1. unfold gets at 1.
  destruct (is_undefined (botUuid (new generated jobParams))); [reflexivity|].
  unfold bind at 1. unfold modify at 1. unfold bind at 1.
  pose proof (startup_only_logs w (set_current "none" (new generated jobParams)) eq_refl) as H.
  destruct (fsm w "startup" (set_current "none" (new generated jobParams))) as [[[a|e] s] tr];
    cbn [trace_of snd] in H |- *.
  - cbv [bind modify]. cbn [trace_of snd app]. rewrite app_nil_r. exact H.
  - exact H.
Qed.

(** C1 as stated does not hold: the [startFail] transition lands in the
    settled state [ready] and is broadcast, but no call is made on the
    database model, neither by the event alone nor by the whole [start]
    command whose device call failed. *)
Lemma startFail_is_not_persisted :
  result_of (fsm Sample.faulty "startFail" (Sample.in_state "starting")) = Ret SUCCEEDED /\
  current (state_of (fsm Sample.faulty "startFail" (Sample.in_state "starting"))) = "ready" /\
  existsb is_persistence
    (trace_of (fsm Sample.faulty "startFail" (Sample.in_state "starting"))) = false /\
  existsb is_broadcast
    (trace_of (fsm Sample.faulty "startFail" (Sample.in_state "starting"))) = true /\
  transitions (trace_of (processCommand Sample.faulty "start" Sample.ready))
  = [("start", "ready", "starting"); ("startFail", "starting", "ready")] /\
  existsb is_persistence (trace_of (processCommand Sample.faulty "start" Sample.ready))
  = false.
Proof. vm_compute. repeat split. Qed.

(** The write that a [Done] transition starts is made when its callback
    resumes, with the job as it is then: after a start at once followed by
    a pause, the write that [startDone] started records the state
    [paused]. *)
Lemma write_is_of_the_later_job :
  exists rest,
    snd (onenterstate_fiber "startDone" "starting" "running" Sample.started_job)
    = Awaiting rest /\
    Attributes.state (attributes Sample.started_job) = "running" /\
    ports (fst (rest Sample.later
                  (state_of (processCommand Sample.later "pause" Sample.started_job))))
    = [UpdateAttributes (JNum 7)
         (attributes (state_of (processCommand Sample.later "pause" Sample.started_job)))] /\
    Attributes.state
      (attributes (state_of (processCommand Sample.later "pause" Sample.started_job)))
    = "paused".
Proof. eexists. split; [reflexivity |]. vm_compute. repeat split. Qed.

(** C1 (amended).  A transition whose event name contains [Done]
    ([startDone], [pauseDone], [resumeDone], [runningDone]) calls [findById]
    at once and makes no other call on the two ports before its callback,
    which nobody waits for, suspends.  When the callback resumes and a
    record was found, it calls [updateAttributes] with the state, file,
    start time, stopwatch reading and percentage that the job has at that
    time, and when it resumes again it broadcasts the projection that the
    job has then, whether or not the write succeeded; when no record was
    found or [findById] was rejected, it makes no write and broadcasts at
    its first resumption.  The entries into [starting], [pausing],
    [resuming] and [canceling] and the transitions [startFail], [pauseFail],
    [resumeFail] and [cancelFail] broadcast at once the projection of the
    job in its new state, make no call on the database model and leave
    nothing suspended.  Initialization makes no call on either port. *)
Theorem onenterstate_ports (w : World) (j : t) :
  (forall name from to,
     In (name, from, to) persisted_transitions -> current j = from ->
     let r := fsm w name j in
     let j' := set_current to j in
     result_of r = Ret SUCCEEDED /\ state_of r = j' /\
     trace_of r = fst (onenterstate_fiber name from to j') /\
     ports (trace_of r) = [FindById (id j)] /\
     exists rest,
       snd (onenterstate_fiber name from to j') = Awaiting rest /\
       forall (w1 : World) (j1 : t),
         match findById w1 with
         | Found =>
             ports (fst (rest w1 j1)) = [UpdateAttributes (id j) (attributes j1)] /\
             exists rest',
               snd (rest w1 j1) = Awaiting rest' /\
               forall (w2 : World) (j2 : t),
                 ports (fst (rest' w2 j2)) = [Broadcast (uuid j2) (getJob j2)] /\
                 snd (rest' w2 j2) = Finished
         | _ =>
             ports (fst (rest w1 j1)) = [Broadcast (uuid j1) (getJob j1)] /\
             snd (rest w1 j1) = Finished
         end)
  /\
  (forall name from to,
     In (name, from, to) broadcast_only_transitions -> current j = from ->
     let r := fsm w name j in
     let j' := set_current to j in
     result_of r = Ret SUCCEEDED /\ state_of r = j' /\
     trace_of r = fst (onenterstate_fiber name from to j') /\
     snd (onenterstate_fiber name from to j') = Finished /\
     ports (trace_of r) = [Broadcast (uuid j) (getJob j')])
  /\
  (forall generated jobParams,
     ports (trace_of (initialize w (new generated jobParams))) = []).
Proof.
  split; [|split].
  - intros name from to Hin Hc.
    destruct j as [bu fu u ini i c sw st el pc].
    cbn [current] in Hc. subst c.
    cbn [In persisted_transitions] in Hin.
    repeat (destruct Hin as [Hin | Hin];
            [ inversion Hin; clear Hin; subst name from to | ]);
      try contradiction;
      (cbv zeta; repeat (split; [reflexivity |]);
       eexists; split; [reflexivity |];
       intros [jm1 b1 [| | msg] ua1 n1] j1; cbn [findById];
       [ split; [reflexivity |]; eexists; split; [reflexivity |];
         intros [jm2 b2 f2 [msg |] n2] j2; split; reflexivity
       | split; reflexivity
       | split; reflexivity ]).
  - intros name from to Hin Hc.
    destruct j as [bu fu u ini i c sw st el pc].
    cbn [current] in Hc. subst c.
    cbn [In broadcast_only_transitions] in Hin.
    repeat (destruct Hin as [Hin | Hin];
            [ inversion Hin; clear Hin; subst name from to | ]);
      try contradiction; vm_compute; repeat split.
  - apply initialize_ports.
Qed.

Lemma onenterstate_ports_witness :
  ports (trace_of (fsm Sample.fine "pauseDone" (Sample.in_state "pausing")))
  = [ FindById (JNum 7) ] /\
  ports (trace_of (fsm Sample.fine "resumeFail" (Sample.in_state "resuming")))
  = [ Broadcast (JStr "job-1") (getJob (Sample.in_state "paused")) ].
Proof.
  split.
  - apply (proj1 (onenterstate_ports Sample.fine (Sample.in_state "pausing"))
             "pauseDone" "pausing" "paused").
    + unfold persisted_transitions. pick.
    + reflexivity.
  - apply (proj1 (proj2 (onenterstate_ports Sample.fine (Sample.in_state "resuming")))
             "resumeFail" "resuming" "paused").
    + unfold broadcast_only_transitions. pick.
    + reflexivity.
Defined.


Lemma fsm_map_table (j : t) : fsm_map j = fold_left add (table j) [].
Proof. reflexivity. Qed.

(** No row of the table is a wildcard row. *)
Lemma no_wildcard (j : t) (n : string) : has_row (table j) n WILDCARD = false.
Proof.
  unfold has_row, table, events.
  cbn [existsb StateMachine.name from_array StateMachine.from cancelable].
  repeat match goal with
    | |- context [(?a =? ?b)%string] =>
        first [ is_var a; fail 1 | is_var b; fail 1
              | let v := eval vm_compute in (a =? b)%string in
                change (a =? b)%string with v ]
    end.
  cbn [existsb orb]. repeat rewrite andb_false_r. reflexivity.
Qed.

(** C2.  An event of the machine fired in a state for which the table has no
    row of that event runs the [error] hook: the error is logged, it is
    thrown to the caller of the event, and the job (its machine state
    included) is as it was. *)
Theorem invalid_transition_is_fatal (w : World) (j : t) (name : string) :
  is_event (table j) name = true ->
  has_row (table j) name (current j) = false ->
  let e := FsmError (uuid j) name (current j) (current j) INVALID_TRANSITION
             ("event " ++ name ++ " inappropriate in current state " ++ current j)%string in
  fsm w name j = (Throw e, j, [LogError (MsgThrown e)]).
Proof.
  intros Hev Hrow.
  pose proof (StateMachineProperties.method_iff_event (table j) [] name) as Hm.
  pose proof (StateMachineProperties.transition_iff_row (table j) [] name (current j)) as Hc.
  pose proof (StateMachineProperties.transition_iff_row (table j) [] name WILDCARD) as Hw.
  rewrite <- fsm_map_table in Hm, Hc, Hw.
  rewrite Hev in Hm. rewrite Hrow in Hc. rewrite no_wildcard in Hw.
  unfold transitions_of in Hc, Hw. cbn [aget defined orb] in Hm, Hc, Hw.
  destruct (aget name (fsm_map j)) as [m |] eqn:E; [| discriminate Hm].
  apply (fsm_cannot w j name m E).
  rewrite StateMachineProperties.can_defined, Hc, Hw. reflexivity.
Qed.

Lemma invalid_transition_is_fatal_witness :
  is_event (table (Sample.in_state "starting")) "pause" = true /\
  has_row (table (Sample.in_state "starting")) "pause" "starting" = false /\
  fsm Sample.fine "pause" (Sample.in_state "starting")
  = (Throw (FsmError (JStr "job-1") "pause" "starting" "starting" 100
              "event pause inappropriate in current state starting"),
     Sample.in_state "starting",
     [LogError (MsgThrown (FsmError (JStr "job-1") "pause" "starting" "starting" 100
                             "event pause inappropriate in current state starting"))]).
Proof.
  split; [reflexivity |]. split; [reflexivity |].
  exact (invalid_transition_is_fatal Sample.fine (Sample.in_state "starting") "pause"
           eq_refl eq_refl).
Defined.

(** *** The start time *)

Lemma error_keeps_started (n f t' : string) (c : Z) (msg : string) :
  preserves unstarted (error n f t' c msg).
Proof. unfold error. keeps. Qed.

Lemma onenterstate_keeps (P : t -> Prop) (event from to : string) :
  preserves P (onenterstate event from to).
Proof. intros j H. exact H. Qed.

#[local] Hint Resolve error_keeps_started onenterstate_keeps : keeps.

Lemma fsm_keeps_started (w : World) (name : string) :
  preserves unstarted (fsm w name).
Proof. unfold fsm, call, buildEvent, doCallback. keeps. Qed.

#[local] Hint Resolve fsm_keeps_started : keeps.

Lemma pause_keeps_started (w : World) : preserves unstarted (pause w).
Proof. unfold pause, lookup, bot_call, stopwatch_stop, updateTime, onTime. keeps. Qed.

Lemma resume_keeps_started (w : World) : preserves unstarted (resume w).
Proof. unfold resume, lookup, bot_call, stopwatch_start, updateTime, onTime. keeps. Qed.

Lemma cancel_keeps_started (w : World) : preserves unstarted (cancel w).
Proof. unfold cancel, lookup, bot_call, stopwatch_stop, updateTime, onTime. keeps. Qed.

#[local] Hint Resolve pause_keeps_started resume_keeps_started cancel_keeps_started : keeps.

Lemma tick_keeps_started (w : World) : preserves unstarted (tick w).
Proof. unfold tick, updateTime, onTime. keeps. Qed.

Lemma initialize_unstarted (w : World) (generated : string) (jobParams : JobParams.t) :
  unstarted (state_of (initialize w (new generated jobParams))).
Proof.
  assert (K : preserves unstarted (initialize w)).
  { unfold initialize. keeps. apply preserves_modify. reflexivity. }
  apply K. reflexivity.
Qed.

(** A [start] whose device call did not succeed leaves the job without a
    start time. *)
Lemma start_keeps_started (w : World) (j : t) :
  existsb is_start_command (trace_of (processCommand w "start" j)) && device_ok w StartJob
  = false ->
  unstarted j -> unstarted (state_of (processCommand w "start" j)).
Proof.
  intros Hns Hu.
  destruct (String.eqb_spec (current j) "ready") as [E | E].
  - destruct j as [bu fu u ini i c [on rt m] st el pc].
    unfold unstarted in *. cbn [started current] in Hu, E. subst c st.
    split_world w; vm_compute in Hns |- *; first [reflexivity | discriminate Hns].
  - unfold processCommand. cbn [String.eqb Ascii.eqb Bool.eqb]. unfold bind.
    rewrite (start_refused w j E). exact Hu.
Qed.

Lemma step_keeps_started (s : Step) (j : t) :
  start_succeeded s j = false -> unstarted j -> unstarted (step s j).
Proof.
  destruct s as [w command | w name | w | p]; cbn [start_succeeded step]; intros Hns Hu.
  - destruct (String.eqb_spec command "start") as [E | E].
    + subst command. apply start_keeps_started; assumption.
    + assert (K : preserves unstarted (processCommand w command)).
      { unfold processCommand. apply String.eqb_neq in E. rewrite E. keeps. }
      apply K, Hu.
  - apply fsm_keeps_started, Hu.
  - apply tick_keeps_started, Hu.
  - exact Hu.
Qed.

Lemma run_keeps_started (h : list Step) :
  forall j, never_started h j = true -> unstarted j -> unstarted (run h j).
Proof.
  induction h as [| s h IH]; intros j Hn Hu; cbn [run never_started] in *.
  - exact Hu.
  - apply andb_true_iff in Hn. destruct Hn as [Hs Hn].
    apply negb_true_iff in Hs. apply IH; [exact Hn |].
    apply step_keeps_started; assumption.
Qed.

(** A successful start does give the job a start time. *)
Lemma started_after_start :
  never_started [Command Sample.fine "start"] Sample.ready = false /\
  Projection.started (getJob (run [Command Sample.fine "start"] Sample.ready)) = JNum 1000.
Proof. split; reflexivity. Qed.

(** C8.  [getJob] answers a record of the seven fields [botUuid], [uuid],
    [state], [fileUuid], [started], [elapsed] and [percentComplete]:
    [botUuid], [uuid] and [percentComplete] are those of the job, [fileUuid]
    is [false] when the job has none, and for a job whose history since
    [initialize] has no successful start, [started] and [elapsed] are both
    [null]. *)
Theorem getJob_projection (w : World) (generated : string) (jobParams : JobParams.t)
    (h : list Step) (j : t) :
  Projection.botUuid (getJob j) = botUuid j /\
  Projection.uuid (getJob j) = uuid j /\
  Projection.state (getJob j) = (if (current j =? "")%string then "ready" else current j) /\
  Projection.fileUuid (getJob j)
  = (if is_undefined (fileUuid j) then JBool false else fileUuid j) /\
  Projection.percentComplete (getJob j) = percentComplete j /\
  (never_started h (state_of (initialize w (new generated jobParams))) = true ->
   let j' := run h (state_of (initialize w (new generated jobParams))) in
   Projection.started (getJob j') = JNull /\ Projection.elapsed (getJob j') = JNull).
Proof.
  repeat (split; [reflexivity |]).
  intros Hn j'.
  assert (Hu : unstarted j').
  { apply run_keeps_started; [exact Hn | apply initialize_unstarted]. }
  unfold getJob. cbn [Projection.started Projection.elapsed].
  rewrite Hu. split; reflexivity.
Qed.

Lemma getJob_projection_witness :
  never_started Sample.history
    (state_of (initialize Sample.fine (new "job-1" Sample.params))) = true /\
  Projection.started
    (getJob (run Sample.history
               (state_of (initialize Sample.fine (new "job-1" Sample.params))))) = JNull /\
  Projection.elapsed
    (getJob (run Sample.history
               (state_of (initialize Sample.fine (new "job-1" Sample.params))))) = JNull.
Proof.
  split; [reflexivity |].
  destruct (getJob_projection Sample.fine "job-1" Sample.params Sample.history Sample.ready)
    as (_ & _ & _ & _ & _ & H).
  apply H. reflexivity.
Defined.


End JobProperties.

(* ------------------------------------------------------------------ *)
(** ** Properties of the device registry *)

Module BotsProperties.

Import Bots.

(** [setupRouter] logs what became of the routes and goes on. *)
Lemma setupRouter_spec (w : World) (r : t) :
  setupRouter w r = (Ret tt, r, [router_log w]).
Proof.
  unfold setupRouter, router_log, attempt, try_catch, bind.
  destruct (fails w Routes); reflexivity.
Qed.

(** The loop of [setupDiscovery] over the files of the directory: it stops
    at the first plugin that fails, leaves the registry as it is and makes
    only calls for plugins. *)
Lemma plugins_spec (body : string * option string -> BotsM unit) :
  (forall entry r,
     body entry r
     = if indexOf (fst entry) ".map" =? -1 then
         match snd entry with
         | Some msg => (Throw msg, r, [Discover (fst entry)])
         | None => (Ret tt, r, [Discover (fst entry);
                                LogInfo (MsgDiscovery (before_dot (fst entry)))])
         end
       else (Ret tt, r, [])) ->
  forall l r,
    exists tr,
      for_of l body r
      = (match plugin_failure l with None => Ret tt | Some ex => Throw ex end, r, tr)
      /\ forallb is_discovery_call tr = true.
Proof.
  intros Hb. induction l as [| entry l IH]; intros r; cbn [for_of plugin_failure].
  - exists []. split; reflexivity.
  - unfold bind. rewrite Hb.
    destruct (indexOf (fst entry) ".map" =? -1).
    + destruct (snd entry) as [msg |].
      * exists [Discover (fst entry)]. split; reflexivity.
      * destruct (IH r) as (tr & E & Hq). rewrite E.
        exists ([Discover (fst entry); LogInfo (MsgDiscovery (before_dot (fst entry)))] ++ tr).
        split; [reflexivity | exact Hq].
    + destruct (IH r) as (tr & E & Hq). rewrite E. exists tr. split; [reflexivity | exact Hq].
Qed.

(** The message of the failure of [setupDiscovery], if it fails. *)
Lemma setupDiscovery_spec (w : World) (r : t) :
  exists tr,
    setupDiscovery w r
    = (match fails w Discovery with
       | Some ex => Throw ex
       | None =>
           match plugin_failure (discoveryTypes w) with
           | None => Ret tt
           | Some ex => Throw ex
           end
       end, r, SetupDiscovery :: tr)
    /\ forallb is_discovery_call tr = true.
Proof.
  unfold setupDiscovery, attempt. unfold bind at 1. unfold emit at 1.
  unfold bind at 1.
  destruct (fails w Discovery) as [msg |].
  - exists []. split; reflexivity.
  - unfold ret at 1.
    match goal with
    | |- context [for_of _ ?b r] =>
        destruct (plugins_spec b) with (l := discoveryTypes w) (r := r) as (tr & E & Hq)
    end.
    + intros entry r'. unfold bind, emit, throw, ret.
      destruct (indexOf (fst entry) ".map" =? -1); [| reflexivity].
      destruct (snd entry); reflexivity.
    + rewrite E. exists tr. split; [| exact Hq].
      destruct (plugin_failure (discoveryTypes w)); reflexivity.
Qed.

(** The loop of [initialize] over the records: each record in turn makes a
    handle and assigns it under its port. *)
Lemma loop_spec (body : Settings -> BotsM unit) :
  (forall s r,
     body s r
     = (Ret tt,
        {| records := records r; bots := assign (port s) (handle_of s) (bots r) |},
        [NewBot (settings (handle_of s))])) ->
  forall rows r,
    for_of rows body r
    = (Ret tt,
       {| records := records r;
          bots := fold_left (fun b s => assign (port s) (handle_of s) b) rows (bots r) |},
       map (fun s => NewBot (settings (handle_of s))) rows).
Proof.
  intros Hb. induction rows as [| s rows IH]; intros r; cbn [for_of fold_left map].
  - destruct r. reflexivity.
  - unfold bind. rewrite Hb, IH. reflexivity.
Qed.

Lemma discovery_calls_are_no_record_calls (tr : list Effect) :
  forallb is_discovery_call tr = true ->
  existsb is_record_call tr = false /\ existsb is_create tr = false /\
  existsb is_new_bot tr = false /\ existsb is_outcome tr = false.
Proof.
  induction tr as [| e tr IH]; cbn [forallb existsb]; [repeat split |].
  intros H. apply andb_true_iff in H. destruct H as [He H].
  destruct (IH H) as (H1 & H2 & H3 & H4). rewrite H1, H2, H3, H4.
  destruct e as [[] | [] | | | | |]; try discriminate He; repeat split.
Qed.

(** What [initialize] does when the bot model answers. *)
Lemma initialize_reliable (w : World) (r : t) :
  fails w BotModel = None -> fails w FindAll = None ->
  (records r <> [] \/ fails w Create = None) ->
  let rows := match records r with [] => [initialBotObject] | _ => records r end in
  let made := match records r with
              | [] => [CallCreate initialBotObject; CallFindAll]
              | _ => []
              end in
  exists tail,
    initialize w r
    = (Ret tt,
       {| records := rows;
          bots := fold_left (fun b s => assign (port s) (handle_of s) b) rows (bots r) |},
       router_log w :: CallFindAll :: made
         ++ map (fun s => NewBot (settings (handle_of s))) rows
         ++ SetupDiscovery :: tail ++ [outcome w r])
    /\ forallb is_discovery_call tail = true.
Proof.
  intros Hm Hf Hc. cbv zeta.
  unfold outcome, first_failure. rewrite Hm, Hf.
  unfold initialize. unfold try_catch at 1. unfold bind at 1.
  rewrite setupRouter_spec. unfold findAll, create, attempt. rewrite Hm, Hf.
  destruct r as [recs bs]. cbn [records bots] in *.
  destruct recs as [| s0 recs].
  - destruct Hc as [Hc | Hc]; [congruence |]. rewrite Hc.
    unfold bind at 1. unfold ret at 1.
    unfold bind at 1. unfold bind at 1. unfold emit at 1. unfold bind at 1. unfold ret at 1.
    unfold gets at 1. cbn [records length Z.of_nat Z.eqb].
    unfold bind at 1. unfold bind at 1. unfold bind at 1. unfold emit at 1.
    unfold bind at 1. unfold ret at 1. unfold modify at 1.
    unfold bind at 1. unfold emit at 1. unfold bind at 1. unfold ret at 1. unfold gets at 1.
    cbn [records bots app].
    unfold bind at 1. rewrite loop_spec by (intros; reflexivity). cbn [records bots].
    unfold bind at 1.
    match goal with
    | |- context [setupDiscovery w ?r0] =>
        destruct (setupDiscovery_spec w r0) as (tr & E & Hq); rewrite E
    end.
    exists tr. split; [| exact Hq].
    destruct (fails w Discovery) as [msg |];
      [| destruct (plugin_failure (discoveryTypes w))];
      unfold emit; cbn [app map]; rewrite <- ?app_assoc; reflexivity.
  - unfold bind at 1. unfold ret at 1.
    unfold bind at 1. unfold bind at 1. unfold emit at 1. unfold bind at 1. unfold ret at 1.
    unfold gets at 1. cbn [records].
    change (Z.of_nat (length (s0 :: recs)) =? 0) with false. cbv iota.
    unfold bind at 1. unfold ret at 1.
    unfold bind at 1. rewrite loop_spec by (intros; reflexivity). cbn [records bots].
    unfold bind at 1.
    match goal with
    | |- context [setupDiscovery w ?r0] =>
        destruct (setupDiscovery_spec w r0) as (tr & E & Hq); rewrite E
    end.
    exists tr. split; [| exact Hq].
    destruct (fails w Create);
      (destruct (fails w Discovery) as [msg |];
       [| destruct (plugin_failure (discoveryTypes w))]);
      unfold emit; cbn [app map]; rewrite <- ?app_assoc; reflexivity.
Qed.

Lemma no_record_call_in_handles (p : Effect -> bool) (rows : list Settings) :
  (forall s, p (NewBot s) = false) ->
  existsb p (map (fun s => NewBot (settings (handle_of s))) rows) = false.
Proof.
  intros Hp. induction rows as [| a l IH]; [reflexivity |].
  cbn [map existsb]. rewrite Hp, IH. reflexivity.
Qed.

Lemma existsb_false_filter {A} (p : A -> bool) (l : list A) :
  existsb p l = false -> filter p l = [].
Proof.
  induction l as [| a l IH]; cbn [existsb filter]; [reflexivity |].
  intros H. apply orb_false_iff in H. destruct H as [H1 H2]. rewrite H1. apply IH, H2.
Qed.

(** C9.  When the bots table is empty and the bot model answers, the
    registry creates one record, the default one with port [null], before
    it makes any handle: afterwards the table holds exactly that record and
    the registry holds exactly one handle, made from it. *)
Theorem initialize_synthesizes_default (w : World) :
  fails w BotModel = None -> fails w FindAll = None -> fails w Create = None ->
  let r := initialize w (new []) in
  records (state_of r) = [initialBotObject] /\
  bots (state_of r) = [("null", {| settings := initialBotObject |})] /\
  filter is_record_call (trace_of r)
  = [CallFindAll; CallCreate initialBotObject; CallFindAll; NewBot initialBotObject].
Proof.
  intros Hm Hf Hc.
  destruct (initialize_reliable w (new []) Hm Hf (or_intror Hc)) as (tail & E & Hq).
  cbv zeta. rewrite E. clear E.
  split; [reflexivity |]. split; [reflexivity |].
  apply discovery_calls_are_no_record_calls in Hq. destruct Hq as (Hq & _).
  cbn [trace_of snd records new map app handle_of settings].
  assert (Hr : is_record_call (router_log w) = false)
    by (unfold router_log; destruct (fails w Routes); reflexivity).
  assert (Ho : is_record_call (outcome w (new [])) = false)
    by (unfold outcome; destruct (first_failure w (new [])); reflexivity).
  cbn [filter is_record_call]. rewrite Hr.
  rewrite filter_app, (existsb_false_filter _ _ Hq).
  cbn [filter app]. rewrite Ho. reflexivity.
Qed.

Lemma initialize_synthesizes_default_witness :
  records (state_of (initialize Sample.no_discovery (new []))) = [initialBotObject] /\
  bots (state_of (initialize Sample.no_discovery (new [])))
  = [("null", {| settings := initialBotObject |})].
Proof.
  destruct (initialize_synthesizes_default Sample.no_discovery eq_refl eq_refl eq_refl)
    as (H1 & H2 & _).
  split; [exact H1 | exact H2].
Defined.

End BotsProperties.
(* ------------------------------------------------------------------ *)
(** ** More on the job: what commands and histories do *)

Module JobBehaviour.

Import StateMachine Job JobProperties.

(** Case analysis on what the registry holds and on what the device answers
    to a command that calls its operation [op]. *)
Ltac split_for op w :=
  let s := fresh "s" in
  let p := fresh "p" in
  let r := fresh "r" in
  let c := fresh "c" in
  let f := fresh "f" in
  let ua := fresh "ua" in
  let n := fresh "n" in
  let jm := fresh "jm" in
  destruct w as [jm [| [[s p r c] |]] f ua n];
  [ | lazymatch op with
      | StartJob => destruct s
      | Pause => destruct p
      | Resume => destruct r
      | Cancel => destruct c
      end
    | ].

(** The same, for whichever of the four commands is at hand. *)
Ltac split_command w :=
  lazymatch goal with
  | |- context [processCommand w "start"] => split_for StartJob w
  | |- context [processCommand w "pause"] => split_for Pause w
  | |- context [processCommand w "resume"] => split_for Resume w
  | |- context [processCommand w "cancel"] => split_for Cancel w
  end.

(** *** The machine *)

(** The callback returns, and leaves the job as it is. *)
Lemma onenterstate_returns (event from to : string) (j : t) :
  exists tr, onenterstate event from to j = (Ret tt, j, tr).
Proof. eexists. reflexivity. Qed.

(** What an event method does, by whether its transitions list the state of
    the job and whether the row changes it. *)
Lemma fsm_spec (w : World) (j : t) (name : string) (m : Transitions) :
  aget name (fsm_map j) = Some m ->
  let c := current j in
  let d := destination m c in
  fsm w name j
  = if can m c
    then if (c =? d)%string
         then (Ret NOTRANSITION, j, [])
         else (Ret SUCCEEDED, set_current d j,
               trace_of (onenterstate name c d (set_current d j)))
    else error name c d INVALID_TRANSITION
           ("event " ++ name ++ " inappropriate in current state " ++ c)%string j.
Proof.
  intros Hm c d. unfold fsm, call, bind, gets at 1. rewrite Hm.
  unfold buildEvent, bind, gets. fold c. fold d.
  destruct (can m c); cbn [negb]; [| reflexivity].
  destruct (c =? d)%string; [reflexivity |].
  unfold modify, doCallback, try_catch.
  destruct (onenterstate_returns name c d (set_current d j)) as [tr E].
  rewrite E. unfold ret. cbn [trace_of snd app]. rewrite app_nil_r. reflexivity.
Qed.

Lemma aget_In {V} (k : string) (v : V) (l : list (string * V)) :
  aget k l = Some v -> In (k, v) l.
Proof.
  induction l as [| [k' v'] l IH]; cbn [aget]; [discriminate |].
  destruct (String.eqb_spec k' k) as [E | E]; intros H.
  - inversion H. subst. left. reflexivity.
  - right. apply IH, H.
Qed.

(** The rows, written out. *)
Lemma rows_eq (j : t) :
  rows j =
  [ ("startup", "none", if (initial j =? "")%string then "none" else initial j);
    ("start", "ready", "starting");
    ("startFail", "starting", "ready");
    ("startDone", "starting", "running");
    ("pause", "running", "pausing");
    ("pause", "paused", "paused");
    ("pauseFail", "pausing", "running");
    ("pauseDone", "pausing", "paused");
    ("resume", "paused", "resuming");
    ("resume", "running", "running");
    ("resumeFail", "resuming", "paused");
    ("resumeDone", "resuming", "running");
    ("runningDone", "running", "complete");
    ("cancel", "running", "canceling");
    ("cancel", "paused", "canceling");
    ("cancel", "starting", "canceling");
    ("cancel", "pausing", "canceling");
    ("cancel", "resuming", "canceling");
    ("cancelFail", "canceling", "canceled") ].
Proof. reflexivity. Qed.

(** A transition that the map of the machine allows is a row of the table. *)
Lemma allowed_is_row (j : t) (name : string) (m : Transitions) (c : string) :
  aget name (fsm_map j) = Some m ->
  can m c = true ->
  In (name, c, destination m c) (rows j).
Proof.
  intros Hm Hc. apply aget_In in Hm. rewrite fsm_map_eq in Hm. rewrite rows_eq.
  cbn [In] in Hm.
  repeat (destruct Hm as [Hm | Hm]; [inversion Hm; clear Hm; subst name m |]);
    try contradiction;
    unfold can in Hc; cbn [aget WILDCARD] in Hc;
    repeat match type of Hc with
      | context [(?k =? c)%string] =>
          let E := fresh "E" in
          destruct (String.eqb_spec k c) as [E | E]; [subst c |]
      end; try (vm_compute in Hc; discriminate Hc).
  all: try solve [vm_compute; pick].
  unfold destination. cbn [aget WILDCARD]. rewrite String.eqb_refl.
  destruct (initial j =? "")%string eqn:E0.
  - cbn. left. reflexivity.
  - rewrite E0. left. reflexivity.
Qed.


(** An event leaves the job as it is, or moves its machine state along a
    row of the table and changes nothing else. *)
Lemma fsm_step (w : World) (j : t) (name : string) :
  state_of (fsm w name j) = j \/
  exists to,
    In (name, current j, to) (rows j) /\ to <> current j /\
    result_of (fsm w name j) = Ret SUCCEEDED /\
    state_of (fsm w name j) = set_current to j.
Proof.
  destruct (aget name (fsm_map j)) as [m |] eqn:Hm.
  - rewrite (fsm_spec w j name m Hm).
    destruct (can m (current j)) eqn:Hc; [| left; reflexivity].
    destruct (String.eqb_spec (current j) (destination m (current j))) as [E | E];
      [left; reflexivity |].
    right. exists (destination m (current j)).
    split; [apply (allowed_is_row j name m _ Hm Hc) |].
    split; [congruence |]. split; reflexivity.
  - left. unfold fsm, call, bind, gets. rewrite Hm. reflexivity.
Qed.

(** An event for which the table has no row in the state of the job. *)
Lemma fsm_no_row (w : World) (j : t) (name : string) :
  is_event (table j) name = true ->
  has_row (table j) name (current j) = false ->
  let e := FsmError (uuid j) name (current j) (current j) INVALID_TRANSITION
             ("event " ++ name ++ " inappropriate in current state " ++ current j)%string in
  fsm w name j = (Throw e, j, [LogError (MsgThrown e)]).
Proof.
  intros Hev Hrow.
  pose proof (StateMachineProperties.method_iff_event (table j) [] name) as Hm.
  pose proof (StateMachineProperties.transition_iff_row (table j) [] name (current j)) as Hc.
  pose proof (StateMachineProperties.transition_iff_row (table j) [] name WILDCARD) as Hw.
  rewrite <- fsm_map_table in Hm, Hc, Hw.
  rewrite Hev in Hm. rewrite Hrow in Hc. rewrite no_wildcard in Hw.
  unfold transitions_of in Hc, Hw. cbn [aget defined orb] in Hm, Hc, Hw.
  destruct (aget name (fsm_map j)) as [m |] eqn:E; [| discriminate Hm].
  apply (fsm_cannot w j name m E).
  rewrite StateMachineProperties.can_defined, Hc, Hw. reflexivity.
Qed.

(** *** Commands that are refused *)

Lemma unsupported (w : World) (j : t) (command : string) :
  ~ In command supported ->
  processCommand w command j = (Throw (NotSupported command), j, []).
Proof.
  intros Hn. unfold processCommand.
  repeat match goal with
    | |- context [(command =? ?s)%string] =>
        let E := fresh "E" in
        destruct (String.eqb_spec command s) as [E | E];
        [exfalso; apply Hn; subst command; unfold supported; pick |]
    end.
  reflexivity.
Qed.

Lemma refused (w : World) (j : t) (command : string) :
  In command supported ->
  has_row events command (current j) = false ->
  let e := FsmError (uuid j) command (current j) (current j) INVALID_TRANSITION
             ("event " ++ command ++ " inappropriate in current state " ++ current j)%string in
  processCommand w command j = (Throw e, j, [LogError (MsgThrown e)]).
Proof.
  intros Hs Hrow. unfold supported in Hs. in_cases Hs; cbv zeta.
  - unfold processCommand. cbn [String.eqb Ascii.eqb Bool.eqb].
    unfold start, bind. rewrite (fsm_no_row w j "start" eq_refl Hrow). reflexivity.
  - assert (Hp : (current j =? "paused")%string = false).
    { apply String.eqb_neq. intros E. rewrite E in Hrow. discriminate Hrow. }
    unfold processCommand. cbn [String.eqb Ascii.eqb Bool.eqb].
    unfold pause, bind, gets. rewrite Hp.
    rewrite (fsm_no_row w j "pause" eq_refl Hrow). reflexivity.
  - assert (Hp : (current j =? "running")%string = false).
    { apply String.eqb_neq. intros E. rewrite E in Hrow. discriminate Hrow. }
    unfold processCommand. cbn [String.eqb Ascii.eqb Bool.eqb].
    unfold resume, bind, gets. rewrite Hp.
    rewrite (fsm_no_row w j "resume" eq_refl Hrow). reflexivity.
  - unfold processCommand. cbn [String.eqb Ascii.eqb Bool.eqb].
    unfold cancel, bind. rewrite (fsm_no_row w j "cancel" eq_refl Hrow). reflexivity.
Qed.


(** The states for which the event of a command has a row. *)
Ltac valid_pairs Hs Hrow :=
  apply has_row_events in Hrow; cbn [In] in Hrow;
  repeat (destruct Hrow as [Hrow | Hrow]; [inversion Hrow; clear Hrow; subst |]);
  try contradiction; unfold supported in Hs; in_cases Hs.

(** Evaluate a command on a job and in a world that have been taken
    apart, leaving the arithmetic of the stopwatch as it is. *)
Ltac evaluate := cbv zeta; cbv -[Z.sub Z.add].

Lemma clock_round (n m : Z) : n - (n - m) = m.
Proof. lia. Qed.

(** A supported command in a state for which its event has a row returns,
    when the registry has a bot list. *)
Lemma accepted (w : World) (j : t) (command : string) :
  has_bot_list w = true ->
  In command supported ->
  has_row events command (current j) = true ->
  exists p, result_of (processCommand w command j) = Ret p.
Proof.
  intros Hb Hs Hrow. destruct j as [bu fu u ini i c [on rt m] st el pc].
  cbn [current] in Hrow.
  valid_pairs Hs Hrow; split_command w; try discriminate Hb; destruct on;
    eexists; reflexivity.
Qed.

(** Without a bot list, a command whose event moves the machine throws at
    the reading of the handle, after the event and what its callback did at
    once. *)
Lemma unlisted_command (w : World) (j : t) (command to : string) :
  has_bot_list w = false ->
  In command supported ->
  In (command, current j, to) (rows j) -> to <> current j ->
  processCommand w command j
  = (Throw (NoProperty "botList"), set_current to j,
     LogInfo (MsgTransition (botUuid j) (uuid j) command (current j) to)
       :: jobEvent (set_current to j)).
Proof.
  intros Hb Hs Hrow Hne. rewrite rows_eq in Hrow.
  destruct j as [bu fu u ini i c sw st el pc]. cbn [current] in *.
  unfold supported in Hs. in_cases Hs; cbn [In] in Hrow;
    repeat (destruct Hrow as [Hrow | Hrow];
            [first [discriminate Hrow | inversion Hrow; clear Hrow; subst] |]);
    try contradiction; try congruence;
    split_command w; try discriminate Hb; reflexivity.
Qed.

(** X1.  A command that is not one of [start], [pause], [resume] and
    [cancel] is reported: [processCommand] throws the message that names
    the command, the job is unchanged and no call at all has been made. *)
Theorem unsupported_command_is_reported (w : World) (j : t) (command : string) :
  ~ In command supported ->
  processCommand w command j = (Throw (NotSupported command), j, []).
Proof. apply unsupported. Qed.

Lemma unsupported_command_witness :
  processCommand Sample.fine "stop" Sample.ready
  = (Throw (NotSupported "stop"), Sample.ready, []).
Proof.
  apply unsupported_command_is_reported. unfold supported. cbn [In].
  intros H. repeat (destruct H as [H | H]; [discriminate H |]). exact H.
Defined.

(** X2.  A supported command whose event has no row for the state of the
    job is refused, whichever it is: the invalid-transition error is
    logged and thrown out of [processCommand], the job is unchanged, and
    the log is the only call made. *)
Theorem command_without_row_is_refused (w : World) (j : t) (command : string) :
  In command supported ->
  has_row events command (current j) = false ->
  let e := FsmError (uuid j) command (current j) (current j) INVALID_TRANSITION
             ("event " ++ command ++ " inappropriate in current state " ++ current j)%string in
  processCommand w command j = (Throw e, j, [LogError (MsgThrown e)]).
Proof. apply refused. Qed.

Lemma command_without_row_witness :
  result_of (processCommand Sample.fine "resume" (Sample.in_state "canceled"))
  = Throw (FsmError (JStr "job-1") "resume" "canceled" "canceled" 100
             "event resume inappropriate in current state canceled") /\
  state_of (processCommand Sample.fine "resume" (Sample.in_state "canceled"))
  = Sample.in_state "canceled".
Proof.
  rewrite (command_without_row_is_refused Sample.fine (Sample.in_state "canceled") "resume").
  - split; reflexivity.
  - unfold supported. pick.
  - reflexivity.
Defined.

(** X3.  When the registry has a bot list, [processCommand] throws exactly
    when the command is not supported or its event has no row for the
    state of the job; and a command that throws has then left the job as it
    was and has called neither the device handle, nor the database model,
    nor the broadcast. *)
Theorem rejected_command_changes_nothing (w : World) (j : t) (command : string) :
  has_bot_list w = true ->
  let r := processCommand w command j in
  ((exists e, result_of r = Throw e) <->
   (~ In command supported \/ has_row events command (current j) = false)) /\
  (forall e, result_of r = Throw e ->
     state_of r = j /\ device_calls (trace_of r) = [] /\ ports (trace_of r) = []).
Proof.
  intros Hb. cbv zeta.
  assert (D : {In command supported} + {~ In command supported}).
  { apply in_dec, string_dec. }
  destruct D as [Hs | Hs].
  - destruct (has_row events command (current j)) eqn:Hrow.
    + destruct (accepted w j command Hb Hs Hrow) as [p Hp]. rewrite Hp. split.
      * split; [intros [e He]; discriminate He | intros [H | H]; [contradiction | discriminate H]].
      * intros e He. discriminate He.
    + rewrite (refused w j command Hs Hrow). split.
      * split; [intros _; right; reflexivity | intros _; eexists; reflexivity].
      * intros e _. repeat split.
  - rewrite (unsupported w j command Hs). split.
    + split; [intros _; left; exact Hs | intros _; eexists; reflexivity].
    + intros e _. repeat split.
Qed.

Lemma rejected_command_witness :
  state_of (processCommand Sample.fine "start" Sample.started_job) = Sample.started_job /\
  device_calls (trace_of (processCommand Sample.fine "start" Sample.started_job)) = [] /\
  ports (trace_of (processCommand Sample.fine "start" Sample.started_job)) = [].
Proof.
  exact (proj2 (rejected_command_changes_nothing Sample.fine Sample.started_job "start"
                  eq_refl)
           (FsmError (JStr "job-1") "start" "running" "running" 100
              "event start inappropriate in current state running")
           eq_refl).
Defined.

(** X24.  In a registry without [botList], a supported command whose event
    moves the machine fails at the reading of the handle: [processCommand]
    throws that [TypeError], the job is left in the in-flight state that
    the event entered and is otherwise as it was, the entry has been logged
    and broadcast, and the device has not been called. *)
Theorem command_without_bot_list_is_left_in_flight (w : World) (j : t)
    (command to : string) :
  has_bot_list w = false ->
  In command supported ->
  In (command, current j, to) (rows j) -> to <> current j ->
  let r := processCommand w command j in
  result_of r = Throw (NoProperty "botList") /\
  state_of r = set_current to j /\
  trace_of r
  = [ LogInfo (MsgTransition (botUuid j) (uuid j) command (current j) to);
      LogInfo (MsgJobEvent (getJob (set_current to j)));
      Broadcast (uuid j) (getJob (set_current to j)) ] /\
  device_calls (trace_of r) = [].
Proof.
  intros Hb Hs Hrow Hne. cbv zeta.
  rewrite (unlisted_command w j command to Hb Hs Hrow Hne).
  repeat split.
Qed.

Lemma command_without_bot_list_witness :
  result_of (processCommand Sample.unlisted "pause" Sample.started_job)
  = Throw (NoProperty "botList") /\
  state_of (processCommand Sample.unlisted "pause" Sample.started_job)
  = set_current "pausing" Sample.started_job.
Proof.
  assert (H : In ("pause", current Sample.started_job, "pausing")
                (rows Sample.started_job)) by (vm_compute; pick).
  destruct (command_without_bot_list_is_left_in_flight Sample.unlisted Sample.started_job
              "pause" "pausing" eq_refl ltac:(unfold supported; pick) H
              ltac:(vm_compute; discriminate))
    as (H1 & H2 & _).
  split; [exact H1 | exact H2].
Defined.


(** *** Commands that are carried out *)

(** X4.  A [start] from [ready] whose device call succeeds leaves the job
    [running], with the time of the world as its start time and its
    stopwatch on from the reading it had; the device was called once, for
    [startJob], and the machine went through [start] and [startDone]. *)
Theorem successful_start (w : World) (j : t) :
  current j = "ready" ->
  device_ok w StartJob = true ->
  let r := processCommand w "start" j in
  let j' := state_of r in
  result_of r = Ret (getJob j') /\
  current j' = "running" /\
  started j' = JNum (now w) /\
  running (stopwatch j') = true /\
  ms (stopwatch j') = ms (stopwatch j) /\
  device_calls (trace_of r) = [BotCommand StartJob] /\
  transitions (trace_of r)
  = [("start", "ready", "starting"); ("startDone", "starting", "running")].
Proof.
  intros Hc Hd. destruct j as [bu fu u ini i c [rn rt m] st el pc].
  cbn [current] in Hc. subst c.
  split_for StartJob w; try discriminate Hd; evaluate; repeat split.
  apply clock_round.
Qed.

Lemma successful_start_witness :
  current (state_of (processCommand Sample.fine "start" Sample.ready)) = "running" /\
  started (state_of (processCommand Sample.fine "start" Sample.ready)) = JNum 1000.
Proof.
  destruct (successful_start Sample.fine Sample.ready eq_refl eq_refl)
    as (_ & H1 & H2 & _).
  split; [exact H1 | exact H2].
Defined.

(** X5.  A [pause] from [running] whose device call succeeds changes the
    state to [paused] and stops the stopwatch, which if it was running
    reads the clock a last time, so that its reading is the time of the
    world less its reference time; a [resume] from [paused] whose device
    call succeeds changes the state to [running] and starts the stopwatch
    from the reading it had, its reference time being the time of the
    world less that reading.  Neither changes anything else, and each
    called the device once. *)
Theorem successful_pause_and_resume (w : World) (j : t) :
  (current j = "running" -> device_ok w Pause = true ->
   let r := processCommand w "pause" j in
   result_of r = Ret (getJob (state_of r)) /\
   state_of r
   = set_stopwatch
       (if running (stopwatch j)
        then {| running := false; refTime := refTime (stopwatch j);
                ms := now w - refTime (stopwatch j) |}
        else stopwatch j)
       (set_current "paused" j) /\
   device_calls (trace_of r) = [BotCommand Pause] /\
   transitions (trace_of r)
   = [("pause", "running", "pausing"); ("pauseDone", "pausing", "paused")])
  /\
  (current j = "paused" -> device_ok w Resume = true ->
   let r := processCommand w "resume" j in
   result_of r = Ret (getJob (state_of r)) /\
   state_of r
   = set_stopwatch
       {| running := true; refTime := now w - ms (stopwatch j); ms := ms (stopwatch j) |}
       (set_current "running" j) /\
   device_calls (trace_of r) = [BotCommand Resume] /\
   transitions (trace_of r)
   = [("resume", "paused", "resuming"); ("resumeDone", "resuming", "running")]).
Proof.
  destruct j as [bu fu u ini i c [rn rt m] st el pc]. cbn [current].
  split; intros Hc Hd; subst c.
  - split_for Pause w; try discriminate Hd; destruct rn; evaluate; repeat split.
  - split_for Resume w; try discriminate Hd; evaluate; rewrite !clock_round; repeat split.
Qed.

Lemma successful_pause_and_resume_witness :
  current (state_of (processCommand Sample.later "pause" Sample.started_job)) = "paused" /\
  stopwatch (state_of (processCommand Sample.later "pause" Sample.started_job))
  = {| running := false; refTime := 1000; ms := 500 |}.
Proof.
  destruct (proj1 (successful_pause_and_resume Sample.later Sample.started_job)
              eq_refl eq_refl) as (_ & H & _).
  rewrite H. split; reflexivity.
Defined.

(** X6.  [resume] on a job that is already [running] does nothing: no
    event is fired, no call is made, and the projection of the unchanged
    job is answered. *)
Theorem resume_when_running_is_noop (w : World) (j : t) :
  current j = "running" ->
  processCommand w "resume" j = (Ret (getJob j), j, []).
Proof.
  intros Hc. unfold processCommand. cbn [String.eqb Ascii.eqb Bool.eqb].
  unfold bind at 1. unfold resume. unfold bind at 1. unfold gets at 1.
  rewrite Hc. reflexivity.
Qed.

Lemma resume_when_running_witness :
  processCommand Sample.faulty "resume" Sample.started_job
  = (Ret (getJob Sample.started_job), Sample.started_job, []).
Proof. apply resume_when_running_is_noop. reflexivity. Defined.

(** X7.  When the call of the device operation of [start], [pause] or
    [resume] fails (the device fails it, or the bot list of the registry
    holds no handle for the bot), the job is afterwards exactly the job it
    was: the state, the stopwatch and the start time are all as before. *)
Theorem failed_operation_leaves_job_unchanged (w : World) (j : t) :
  (current j = "ready" -> device_fails w StartJob = true ->
   state_of (processCommand w "start" j) = j)
  /\
  (current j = "running" -> device_fails w Pause = true ->
   state_of (processCommand w "pause" j) = j)
  /\
  (current j = "paused" -> device_fails w Resume = true ->
   state_of (processCommand w "resume" j) = j).
Proof.
  destruct j as [bu fu u ini i c [rn rt m] st el pc]. cbn [current].
  split; [| split]; intros Hc Hd; subst c.
  - split_for StartJob w; try discriminate Hd; reflexivity.
  - split_for Pause w; try discriminate Hd; reflexivity.
  - split_for Resume w; try discriminate Hd; reflexivity.
Qed.

Lemma failed_operation_witness :
  state_of (processCommand Sample.faulty "pause" Sample.started_job) = Sample.started_job.
Proof.
  apply (proj1 (proj2 (failed_operation_leaves_job_unchanged Sample.faulty Sample.started_job)));
    reflexivity.
Defined.

(** X8.  A successful [pause] of a running job followed by a successful
    [resume] gives back a running job that differs from the one before by
    its stopwatch alone: the stopwatch runs again, it reads what it had
    counted when the job was paused, and its reference time is moved on by
    the time between the two commands, so that the time spent paused is
    not counted.  What the database answered in between has no part in
    it. *)
Theorem pause_is_not_counted (w1 w2 : World) (j : t) :
  current j = "running" ->
  running (stopwatch j) = true ->
  device_ok w1 Pause = true ->
  device_ok w2 Resume = true ->
  state_of (processCommand w2 "resume" (state_of (processCommand w1 "pause" j)))
  = set_stopwatch
      {| running := true;
         refTime := refTime (stopwatch j) + (now w2 - now w1);
         ms := now w1 - refTime (stopwatch j) |}
      j.
Proof.
  intros Hc Hr H1 H2. destruct j as [bu fu u ini i c [rn rt m] st el pc].
  cbn [current stopwatch running] in Hc, Hr. subst c rn.
  split_for Pause w1; try discriminate H1;
    split_for Resume w2; try discriminate H2; evaluate.
  rewrite clock_round.
  match goal with
  | |- context [?a - (?b - ?c)] => replace (a - (b - c)) with (c + (a - b)) by lia
  end.
  reflexivity.
Qed.

Lemma pause_is_not_counted_witness :
  state_of (processCommand Sample.latest "resume"
              (state_of (processCommand Sample.later "pause" Sample.started_job)))
  = set_stopwatch {| running := true; refTime := 3500; ms := 500 |} Sample.started_job.
Proof.
  exact (pause_is_not_counted Sample.later Sample.latest Sample.started_job
           eq_refl eq_refl eq_refl eq_refl).
Defined.



(** *** What every history keeps *)

(** X9.  An event fired on the machine either leaves the job as it is, or
    succeeds and changes nothing but the machine state, which it moves
    along a row of the table. *)
Theorem fsm_moves_along_rows (w : World) (j : t) (name : string) :
  state_of (fsm w name j) = j \/
  exists to,
    In (name, current j, to) (rows j) /\ to <> current j /\
    result_of (fsm w name j) = Ret SUCCEEDED /\
    state_of (fsm w name j) = set_current to j.
Proof. apply fsm_step. Qed.

(** An event fired in a state that no row leaves changes nothing. *)
Lemma fsm_keeps_terminal (w : World) (s name : string) :
  In s terminal -> preserves (fun j => current j = s) (fsm w name).
Proof.
  intros Hs j Hj. destruct (fsm_step w j name) as [E | (to & Hin & _ & _ & _)].
  - rewrite E. exact Hj.
  - exfalso. rewrite rows_eq in Hin. subst s. unfold terminal in Hs. cbn [In] in Hs, Hin.
    destruct Hs as [H | [H | H]]; [| | exact H]; rewrite <- H in Hin;
      repeat (destruct Hin as [Hin | Hin]; [discriminate Hin |]); exact Hin.
Qed.

Lemma step_keeps_terminal (s : string) (st : Step) :
  In s terminal -> forall j, current j = s -> current (step st j) = s.
Proof.
  intros Hs. pose proof (fun w n => fsm_keeps_terminal w s n Hs) as Hf.
  destruct st as [w command | w name | w | p]; cbn [step].
  - change (preserves (fun j => current j = s) (processCommand w command)).
    unfold processCommand, start, pause, resume, cancel, lookup, bot_call,
      stopwatch_start, stopwatch_stop, updateTime, onTime.
    keeps.
  - apply Hf.
  - change (preserves (fun j => current j = s) (tick w)).
    unfold tick, updateTime, onTime. keeps.
  - intros j Hj. exact Hj.
Qed.

(** X10.  [canceled] and [complete] are final: whatever commands, events,
    ticks and progress reports follow, the state stays what it is. *)
Theorem terminal_states_are_absorbing (h : list Step) (j : t) :
  In (current j) terminal -> current (run h j) = current j.
Proof.
  intros Hs. remember (current j) as s eqn:Es. symmetry in Es.
  revert j Es. induction h as [| st h IH]; intros j Es; cbn [run].
  - exact Es.
  - apply IH. apply step_keeps_terminal; assumption.
Qed.

Lemma terminal_states_are_absorbing_witness :
  current (run [Command Sample.fine "resume"; Fire Sample.fine "startFail";
                Tick Sample.later; Command Sample.fine "start"]
             (Sample.in_state "canceled"))
  = "canceled".
Proof.
  apply (terminal_states_are_absorbing
           [Command Sample.fine "resume"; Fire Sample.fine "startFail";
            Tick Sample.later; Command Sample.fine "start"]
           (Sample.in_state "canceled")).
  unfold terminal. pick.
Defined.

(** An event keeps whatever does not depend on the machine state. *)
Lemma fsm_keeps (P : t -> Prop) (w : World) (name : string) :
  (forall s j, P j -> P (set_current s j)) -> preserves P (fsm w name).
Proof.
  intros HP j Hj. destruct (fsm_step w j name) as [E | (to & _ & _ & _ & E)]; rewrite E.
  - exact Hj.
  - apply HP, Hj.
Qed.

(** From a state that the table does not lead back to [ready] from, an
    event leads to another such state. *)
Lemma fsm_keeps_past_start (v : JsVal) (w : World) (name : string) :
  preserves (fun j => In (current j) past_start /\ started j = v) (fsm w name).
Proof.
  intros j [Hc Hv]. destruct (fsm_step w j name) as [E | (to & Hin & _ & _ & E)]; rewrite E.
  - split; assumption.
  - split; [| exact Hv]. cbn [current set_current].
    rewrite rows_eq in Hin. unfold past_start in Hc. cbn [In] in Hc, Hin.
    repeat (destruct Hc as [Hc | Hc]; [rewrite <- Hc in Hin |]); try contradiction;
      repeat (destruct Hin as [Hin | Hin];
              [first [discriminate Hin | inversion Hin; unfold past_start; pick] |]);
      contradiction.
Qed.

Lemma step_keeps_past_start (v : JsVal) (st : Step) (j : t) :
  In (current j) past_start /\ started j = v ->
  In (current (step st j)) past_start /\ started (step st j) = v.
Proof.
  pose proof (fsm_keeps_past_start v) as Hf.
  destruct st as [w command | w name | w | p]; cbn [step]; intros Hj.
  - destruct (String.eqb_spec command "start") as [E | E].
    + subst command. assert (Hn : current j <> "ready").
      { destruct Hj as [Hc _]. unfold past_start in Hc. intros E. rewrite E in Hc.
        cbn [In] in Hc. repeat (destruct Hc as [Hc | Hc]; [discriminate Hc |]). exact Hc. }
      unfold processCommand. cbn [String.eqb Ascii.eqb Bool.eqb]. unfold bind.
      rewrite (start_refused w j Hn). exact Hj.
    + revert j Hj.
      change (preserves (fun j => In (current j) past_start /\ started j = v)
                (processCommand w command)).
      unfold processCommand. apply String.eqb_neq in E. rewrite E.
      unfold pause, resume, cancel, lookup, bot_call, stopwatch_start, stopwatch_stop,
        updateTime, onTime.
      keeps.
  - apply Hf, Hj.
  - revert j Hj.
    change (preserves (fun j => In (current j) past_start /\ started j = v) (tick w)).
    unfold tick, updateTime, onTime. keeps.
  - exact Hj.
Qed.

(** X14.  Once the job has left [ready] and [starting], no history leads
    back to them, and the start time never changes again: the start time
    is set by one successful [start] at most. *)
Theorem start_time_is_set_once (h : list Step) (j : t) :
  In (current j) past_start ->
  In (current (run h j)) past_start /\ started (run h j) = started j.
Proof.
  intros Hc. remember (started j) as v eqn:Ev. symmetry in Ev.
  revert j Hc Ev. induction h as [| st h IH]; intros j Hc Ev; cbn [run].
  - split; assumption.
  - destruct (step_keeps_past_start v st j (conj Hc Ev)) as [Hc' Ev'].
    apply IH; assumption.
Qed.

Lemma start_time_is_set_once_witness :
  started (run [Command Sample.fine "pause"; Command Sample.fine "start";
                Command Sample.fine "resume"; Fire Sample.fine "runningDone";
                Command Sample.fine "start"] Sample.started_job)
  = JNum 1000.
Proof.
  apply (start_time_is_set_once
           [Command Sample.fine "pause"; Command Sample.fine "start";
            Command Sample.fine "resume"; Fire Sample.fine "runningDone";
            Command Sample.fine "start"] Sample.started_job).
  unfold past_start. pick.
Defined.

(** X11.  When the registry has a bot list, no command leaves the job in
    flight: from a settled state ([ready], [running], [paused], [canceled],
    [complete]) every command, whatever the device and the database answer
    and whether it returns or throws, ends in a settled state. *)
Theorem command_ends_settled (w : World) (j : t) (command : string) :
  has_bot_list w = true ->
  In (current j) settled ->
  In (current (state_of (processCommand w command j))) settled.
Proof.
  intros Hb Hc.
  assert (D : {In command supported} + {~ In command supported}).
  { apply in_dec, string_dec. }
  destruct D as [Hs | Hs]; [| rewrite (unsupported w j command Hs); exact Hc].
  destruct (has_row events command (current j)) eqn:Hrow;
    [| rewrite (refused w j command Hs Hrow); exact Hc].
  destruct j as [bu fu u ini i c [on rt m] st el pc]. cbn [current] in Hrow, Hc.
  valid_pairs Hs Hrow; unfold settled in Hc; in_cases Hc;
    split_command w; try discriminate Hb; destruct on; evaluate; pick.
Qed.

Lemma command_ends_settled_witness :
  In (current (state_of (processCommand Sample.faulty "pause" Sample.started_job))) settled.
Proof.
  apply command_ends_settled; [reflexivity |]. unfold settled. pick.
Defined.

(** X12.  One command calls the device handle once at most, in any state
    and whatever is answered. *)
Theorem device_is_called_at_most_once (w : World) (j : t) (command : string) :
  (length (device_calls (trace_of (processCommand w command j))) <= 1)%nat.
Proof.
  assert (D : {In command supported} + {~ In command supported}).
  { apply in_dec, string_dec. }
  destruct D as [Hs | Hs]; [| rewrite (unsupported w j command Hs); cbn; lia].
  destruct (has_row events command (current j)) eqn:Hrow;
    [| rewrite (refused w j command Hs Hrow); cbn; lia].
  destruct j as [bu fu u ini i c [on rt m] st el pc]. cbn [current] in Hrow.
  valid_pairs Hs Hrow; split_command w; destruct on; evaluate; lia.
Qed.

(** After a command in a registry with a bot list, a tick or a progress
    report, a settled job whose stopwatch is on exactly when it is running
    is again such a job. *)
Lemma step_keeps_clocked (st : Step) (j : t) :
  own_step st = true -> listed st = true ->
  In (current j) settled /\ clocked j ->
  In (current (step st j)) settled /\ clocked (step st j).
Proof.
  destruct st as [w command | w name | w | p]; cbn [step own_step listed];
    intros Ho Hb [Hc Hk]; try discriminate Ho.
  - assert (D : {In command supported} + {~ In command supported}).
    { apply in_dec, string_dec. }
    destruct D as [Hs | Hs]; [| rewrite (unsupported w j command Hs); split; assumption].
    destruct (has_row events command (current j)) eqn:Hrow;
      [| rewrite (refused w j command Hs Hrow); split; assumption].
    destruct j as [bu fu u ini i c [rn rt m] st el pc].
    unfold clocked in *. cbn [current stopwatch running] in Hrow, Hc, Hk.
    valid_pairs Hs Hrow; unfold settled in Hc; in_cases Hc;
      split_command w; try discriminate Hb; try subst rn; evaluate;
      (split; [pick | reflexivity]).
  - revert j Hc Hk.
    assert (K : preserves (fun j => In (current j) settled /\ clocked j) (tick w)).
    { unfold tick, updateTime, onTime. keeps. }
    intros j Hc Hk. apply K. split; assumption.
  - split; assumption.
Qed.

(** X13.  Along commands in registries with a bot list, ticks and progress
    reports, a settled job whose stopwatch is on exactly when it is
    [running] stays such a job: the elapsed time is counted while the job
    runs and at no other time. *)
Theorem stopwatch_runs_when_running (h : list Step) (j : t) :
  forallb own_step h = true ->
  forallb listed h = true ->
  In (current j) settled ->
  clocked j ->
  In (current (run h j)) settled /\ clocked (run h j).
Proof.
  revert j. induction h as [| st h IH]; intros j Ho Hb Hc Hk; cbn [run forallb] in *.
  - split; assumption.
  - apply andb_true_iff in Ho. destruct Ho as [Ho1 Ho2].
    apply andb_true_iff in Hb. destruct Hb as [Hb1 Hb2].
    destruct (step_keeps_clocked st j Ho1 Hb1 (conj Hc Hk)) as [Hc' Hk'].
    apply IH; assumption.
Qed.

Lemma stopwatch_runs_when_running_witness :
  clocked (run [Command Sample.fine "start"; Tick Sample.later;
                Command Sample.faulty "pause"; Command Sample.later "pause";
                Progress 50; Command Sample.faulty "resume";
                Command Sample.latest "cancel"] Sample.ready).
Proof.
  refine (proj2 (stopwatch_runs_when_running _ _ _ _ _ _)).
  - reflexivity.
  - reflexivity.
  - unfold settled. pick.
  - reflexivity.
Defined.


(** What an event returns and the job it leaves do not depend on the
    world. *)
Lemma fsm_agree (w w' : World) (name : string) : agree (fsm w name) (fsm w' name).
Proof.
  intros j. destruct (aget name (fsm_map j)) as [m |] eqn:Hm.
  - rewrite (fsm_spec w j name m Hm), (fsm_spec w' j name m Hm).
    destruct (can m (current j)); [| split; reflexivity].
    destruct (current j =? destination m (current j))%string; split; reflexivity.
  - unfold fsm, call, bind, gets. rewrite Hm. split; reflexivity.
Qed.

Ltac agrees :=
  repeat first
    [ apply fsm_agree
    | match goal with |- agree ?a ?b => constr_eq a b; apply agree_refl end
    | apply agree_bind | apply agree_try_catch
    | match goal with
      | |- forall _, _ => intro
      | |- agree (if ?b then _ else _) (if ?b then _ else _) => destruct b
      end ].

(** X16.  What the database answers has no part in the outcome of a
    command: in two worlds with the same device handle and the same clock,
    [processCommand] returns or throws the same thing and leaves the same
    job. *)
Theorem database_does_not_change_outcome (w w' : World) (j : t) (command : string) :
  same_device w w' ->
  result_of (processCommand w command j) = result_of (processCommand w' command j) /\
  state_of (processCommand w command j) = state_of (processCommand w' command j).
Proof.
  intros [Hb Hn]. destruct w as [jm b f ua n], w' as [jm' b' f' ua' n'].
  cbn [bots now] in Hb, Hn. subst b' n'. revert j.
  change (agree
            (processCommand {| jobModel := jm; bots := b; findById := f;
                               updateAttributes := ua; now := n |} command)
            (processCommand {| jobModel := jm'; bots := b; findById := f';
                               updateAttributes := ua'; now := n |} command)).
  unfold processCommand, start, pause, resume, cancel, lookup, bot_call,
    stopwatch_start, stopwatch_stop, updateTime.
  cbn [bots now]. agrees.
Qed.

Lemma database_does_not_change_outcome_witness :
  state_of (processCommand Sample.fine "start" Sample.ready)
  = state_of (processCommand Sample.forgetful "start" Sample.ready).
Proof.
  apply (database_does_not_change_outcome Sample.fine Sample.forgetful Sample.ready "start").
  split; reflexivity.
Defined.

(** [this.elapsed] is assigned by no step. *)
Lemma step_keeps_no_elapsed (st : Step) : forall j, no_elapsed j -> no_elapsed (step st j).
Proof.
  assert (Hf : forall w name, preserves no_elapsed (fsm w name)).
  { intros w name. apply fsm_keeps. intros s j Hj. exact Hj. }
  destruct st as [w command | w name | w | p]; cbn [step].
  - change (preserves no_elapsed (processCommand w command)).
    unfold processCommand, start, pause, resume, cancel, lookup, bot_call,
      stopwatch_start, stopwatch_stop, updateTime, onTime.
    keeps.
  - apply Hf.
  - change (preserves no_elapsed (tick w)).
    unfold tick, updateTime, onTime. keeps.
  - intros j Hj. exact Hj.
Qed.

Lemma initialize_no_elapsed (w : World) (generated : string) (jobParams : JobParams.t) :
  no_elapsed (state_of (initialize w (new generated jobParams))).
Proof.
  assert (Hf : forall name, preserves no_elapsed (fsm w name)).
  { intros name. apply fsm_keeps. intros s j Hj. exact Hj. }
  assert (K : preserves no_elapsed (initialize w)).
  { unfold initialize. keeps. apply preserves_modify. reflexivity. }
  apply K. reflexivity.
Qed.

(** X15.  [this.elapsed] is never assigned after [initialize], so in the
    projection of a job, after any history, [elapsed] is [null] when there
    is no start time, the reading of the stopwatch when that is not zero,
    and [undefined] (not [0]) when the stopwatch reads zero. *)
Theorem elapsed_of_projection (w : World) (generated : string) (jobParams : JobParams.t)
    (h : list Step) :
  let j := run h (state_of (initialize w (new generated jobParams))) in
  Projection.elapsed (getJob j)
  = if truthy (started j)
    then if ms (stopwatch j) =? 0 then JUndefined else JNum (ms (stopwatch j))
    else JNull.
Proof.
  cbv zeta.
  assert (He : no_elapsed (run h (state_of (initialize w (new generated jobParams))))).
  { generalize (initialize_no_elapsed w generated jobParams).
    generalize (state_of (initialize w (new generated jobParams))).
    induction h as [| st h IH]; intros j Hj; cbn [run]; [exact Hj |].
    apply IH, step_keeps_no_elapsed, Hj. }
  unfold getJob. cbn [Projection.elapsed]. unfold js_or. cbn [truthy].
  rewrite He.
  destruct (truthy (started _)); [| reflexivity].
  destruct (ms (stopwatch _) =? 0); reflexivity.
Qed.

(** The [startup] event takes a new machine to its initial state. *)
Lemma startup_moves (w : World) (j : t) :
  current j = "none" -> initial j <> "" -> initial j <> "none" ->
  fsm w "startup" j
  = (Ret SUCCEEDED, set_current (initial j) j,
     [LogInfo (MsgTransition (botUuid j) (uuid j) "startup" "none" (initial j))]).
Proof.
  intros Hc H1 H2.
  apply String.eqb_neq in H1.
  assert (H3 : ("none" =? initial j)%string = false) by (apply String.eqb_neq; congruence).
  rewrite (fsm_spec w j "startup" [("none", initial j)]).
  - rewrite Hc. unfold can, destination. cbn [aget]. rewrite String.eqb_refl, H1, H3.
    reflexivity.
  - rewrite fsm_map_eq. rewrite H1. reflexivity.
Qed.

(** The [startup] event of a machine whose initial state is empty or
    [none] is no transition. *)
Lemma startup_stays (w : World) (j : t) :
  current j = "none" -> initial j = "" \/ initial j = "none" ->
  fsm w "startup" j = (Ret NOTRANSITION, j, []).
Proof.
  intros Hc Hi.
  rewrite (fsm_spec w j "startup"
             [("none", if (initial j =? "")%string then "none" else initial j)]).
  - rewrite Hc. unfold can, destination. cbn [aget]. rewrite String.eqb_refl.
    destruct Hi as [Hi | Hi]; rewrite Hi; reflexivity.
  - rewrite fsm_map_eq. reflexivity.
Qed.

(** X17.  [initialize] on a new job first calls [jobModel]; when that is
    rejected it throws the rejection, and when no [botUuid] was given it
    throws that [botUuid] is not defined, and in both cases nothing else
    has been done.  Otherwise it returns.  When the initial state ([ready],
    or the state given to restore) is neither the empty string nor [none],
    the job has entered it, the entry is logged and not broadcast, and the
    projection of the job carries the given uuid or else the generated one,
    the file or [false], no start time, no elapsed time and a percentage of
    [0]; when the state given to restore is the empty string or [none], the
    machine makes no transition and the job stays in [none]. *)
Theorem fresh_job (w : World) (generated : string) (jobParams : JobParams.t) :
  let j := new generated jobParams in
  (forall msg, jobModel w = Some msg ->
   initialize w j = (Throw (Rejected msg), j, [CallJobModel]))
  /\
  (jobModel w = None -> JobParams.botUuid jobParams = JUndefined ->
   initialize w j = (Throw BotUuidNotDefined, j, [CallJobModel]))
  /\
  (jobModel w = None -> JobParams.botUuid jobParams <> JUndefined ->
   initial j <> "" -> initial j <> "none" ->
   let r := initialize w j in
   result_of r = Ret tt /\
   state_of r = set_current (initial j) j /\
   trace_of r
   = [CallJobModel;
      LogInfo (MsgTransition (botUuid j) (uuid j) "startup" "none" (initial j))] /\
   getJob (state_of r)
   = {| Projection.botUuid := JobParams.botUuid jobParams;
        Projection.uuid := if is_undefined (JobParams.jobUuid jobParams)
                           then JStr generated else JobParams.jobUuid jobParams;
        Projection.state := initial j;
        Projection.fileUuid := if is_undefined (JobParams.fileUuid jobParams)
                               then JBool false else JobParams.fileUuid jobParams;
        Projection.started := JNull;
        Projection.elapsed := JNull;
        Projection.percentComplete := 0 |})
  /\
  (jobModel w = None -> JobParams.botUuid jobParams <> JUndefined ->
   initial j = "" \/ initial j = "none" ->
   initialize w j = (Ret tt, j, [CallJobModel])).
Proof.
  cbv zeta.
  assert (Hu : JobParams.botUuid jobParams <> JUndefined ->
               is_undefined (JobParams.botUuid jobParams) = false).
  { intros Hb. destruct (JobParams.botUuid jobParams); try reflexivity. congruence. }
  split; [| split; [| split]].
  - intros msg Hj. unfold initialize. rewrite Hj. reflexivity.
  - intros Hj Hb. unfold initialize. rewrite Hj.
    unfold bind, emit, ret, gets. cbn [botUuid new]. rewrite Hb. reflexivity.
  - intros Hj Hb H1 H2.
    assert (E : initialize w (new generated jobParams)
                = (Ret tt, set_current (initial (new generated jobParams))
                             (new generated jobParams),
                   [CallJobModel;
                    LogInfo (MsgTransition (JobParams.botUuid jobParams)
                               (uuid (new generated jobParams)) "startup" "none"
                               (initial (new generated jobParams)))])).
    { unfold initialize. rewrite Hj.
      unfold bind at 1. unfold emit at 1. unfold bind at 1. unfold ret at 1.
      unfold bind at 1. unfold gets at 1. cbn [botUuid new].
      rewrite (Hu Hb). unfold bind at 1. unfold modify at 1. unfold bind at 1.
      rewrite (startup_moves w (set_current "none" (new generated jobParams)) eq_refl H1 H2).
      reflexivity. }
    rewrite E. split; [reflexivity |]. split; [reflexivity |]. split; [reflexivity |].
    unfold getJob. cbn -[String.eqb].
    apply String.eqb_neq in H1. cbn [initial new initialState] in H1. rewrite H1.
    reflexivity.
  - intros Hj Hb Hi. unfold initialize. rewrite Hj.
    unfold bind at 1. unfold emit at 1. unfold bind at 1. unfold ret at 1.
    unfold bind at 1. unfold gets at 1. cbn [botUuid new].
    rewrite (Hu Hb). unfold bind at 1. unfold modify at 1. unfold bind at 1.
    rewrite (startup_stays w (set_current "none" (new generated jobParams)) eq_refl Hi).
    reflexivity.
Qed.

Lemma fresh_job_witness :
  state_of (initialize Sample.faulty (new "job-1" Sample.params))
  = set_current "ready" (new "job-1" Sample.params).
Proof.
  refine (proj1 (proj2 (proj1 (proj2 (proj2 (fresh_job Sample.faulty "job-1" Sample.params)))
                          eq_refl _ _ _)));
    vm_compute; discriminate.
Defined.

(** X25.  The stopwatch counts only while it runs.  A tick of a stopped
    stopwatch does nothing; a tick of a running one sets its reading to the
    time of the world less its reference time, changes nothing else of the
    job, and logs and broadcasts the projection with the new reading; and
    of two ticks of a running stopwatch the one at the later time gives
    the larger reading. *)
Theorem tick_reads_the_clock (w w' : World) (j : t) :
  (running (stopwatch j) = false -> tick w j = (Ret tt, j, []))
  /\
  (running (stopwatch j) = true ->
   let j' := set_stopwatch {| running := true; refTime := refTime (stopwatch j);
                              ms := now w - refTime (stopwatch j) |} j in
   tick w j = (Ret tt, j', jobEvent j'))
  /\
  (running (stopwatch j) = true -> now w <= now w' ->
   ms (stopwatch (state_of (tick w j))) <= ms (stopwatch (state_of (tick w' j)))).
Proof.
  destruct j as [bu fu u ini i c [rn rt m] st el pc]. cbn [stopwatch running].
  split; [| split]; intros Hr; subst rn.
  - reflexivity.
  - reflexivity.
  - intros Hn. change (now w - rt <= now w' - rt). lia.
Qed.

Lemma tick_reads_the_clock_witness :
  ms (stopwatch (state_of (tick Sample.later Sample.started_job))) = 500 /\
  ms (stopwatch (state_of (tick Sample.fine Sample.started_job)))
  <= ms (stopwatch (state_of (tick Sample.later Sample.started_job))).
Proof.
  split.
  - rewrite (proj1 (proj2 (tick_reads_the_clock Sample.later Sample.later
                             Sample.started_job)) eq_refl).
    reflexivity.
  - apply (proj2 (proj2 (tick_reads_the_clock Sample.fine Sample.later Sample.started_job)));
      [reflexivity | discriminate].
Defined.

End JobBehaviour.

(* ------------------------------------------------------------------ *)
(** ** More on the device registry *)

Module BotsBehaviour.

Import StateMachine Bots BotsProperties.

(** *** Objects used as maps *)

Lemma defined_In {V} (k : string) (l : list (string * V)) :
  defined (aget k l) = true <-> In k (map fst l).
Proof.
  induction l as [| [k' v'] l IH]; cbn [aget map fst In defined].
  - split; [discriminate | contradiction].
  - destruct (String.eqb_spec k' k) as [E | E]; cbn [defined].
    + split; [intros _; left; exact E | reflexivity].
    + rewrite IH. split; [intros H; right; exact H | intros [H | H]; [contradiction | exact H]].
Qed.

Lemma keys_aset {V} (k : string) (v : V) (l : list (string * V)) :
  map fst (aset k v l) = if defined (aget k l) then map fst l else map fst l ++ [k].
Proof.
  induction l as [| [k' v'] l IH]; cbn [aset aget map fst defined app]; [reflexivity |].
  destruct (String.eqb_spec k' k) as [E | E]; cbn [map fst defined].
  - subst. reflexivity.
  - rewrite IH. destruct (defined (aget k l)); reflexivity.
Qed.

(** Assigning a property keeps the property names distinct. *)
Lemma NoDup_aset {V} (k : string) (v : V) (l : list (string * V)) :
  NoDup (map fst l) -> NoDup (map fst (aset k v l)).
Proof.
  intros H. rewrite keys_aset. destruct (defined (aget k l)) eqn:E; [exact H |].
  apply NoDup_app; [exact H | repeat constructor; intros [] | ].
  intros x Hx [Hk | []]. subst x. apply defined_In in Hx. congruence.
Qed.

Lemma NoDup_assign {V} (k : string) (v : V) (l : list (string * V)) :
  NoDup (map fst l) -> NoDup (map fst (assign k v l)).
Proof.
  intros H. unfold assign. destruct (k =? "__proto__")%string; [exact H |].
  apply NoDup_aset, H.
Qed.

(** An assignment under [__proto__] makes no property. *)
Lemma defined_aget_assign {V} (k k' : string) (v : V) (l : list (string * V)) :
  defined (aget k' (assign k v l))
  = (((k =? k')%string && negb (k =? "__proto__")%string) || defined (aget k' l))%bool.
Proof.
  unfold assign. destruct (k =? "__proto__")%string.
  - rewrite andb_false_r. reflexivity.
  - rewrite andb_true_r. apply StateMachineProperties.defined_aget_aset.
Qed.

(** *** The handles made from the records *)

Lemma registered (rows : list Settings) :
  forall (bs : list (string * Bot)) (k : string),
    defined (aget k (fold_left (fun b s => assign (port s) (handle_of s) b) rows bs))
    = ((existsb (fun s => (port s =? k)%string) rows && negb (k =? "__proto__")%string)
       || defined (aget k bs))%bool.
Proof.
  induction rows as [| s rows IH]; intros bs k; cbn [fold_left existsb]; [reflexivity |].
  rewrite IH, defined_aget_assign.
  destruct (String.eqb_spec (port s) k) as [E | E].
  - subst k.
    destruct (existsb (fun s' => (port s' =? port s)%string) rows),
      (port s =? "__proto__")%string, (defined (aget (port s) bs)); reflexivity.
  - destruct (existsb (fun s' => (port s' =? k)%string) rows),
      (port s =? "__proto__")%string, (k =? "__proto__")%string, (defined (aget k bs));
      reflexivity.
Qed.

Lemma later_records_keep (rows : list Settings) :
  forall (bs : list (string * Bot)) (k : string),
    (forall s, In s rows -> port s <> k) ->
    aget k (fold_left (fun b s => assign (port s) (handle_of s) b) rows bs) = aget k bs.
Proof.
  induction rows as [| s rows IH]; intros bs k H; cbn [fold_left]; [reflexivity |].
  rewrite IH by (intros s' Hs'; apply H; right; exact Hs').
  unfold assign. destruct (port s =? "__proto__")%string; [reflexivity |].
  apply StateMachineProperties.aget_aset_other. apply H. left. reflexivity.
Qed.

Lemma handles_distinct (rows : list Settings) :
  forall bs : list (string * Bot),
    NoDup (map fst bs) ->
    NoDup (map fst (fold_left (fun b s => assign (port s) (handle_of s) b) rows bs)).
Proof.
  induction rows as [| s rows IH]; intros bs H; cbn [fold_left]; [exact H |].
  apply IH, NoDup_assign, H.
Qed.

Lemma router_log_is_no_outcome (w : World) : is_outcome (router_log w) = false.
Proof. unfold router_log. destruct (fails w Routes); reflexivity. Qed.

(** X19.  [initialize] of the registry never throws: it returns, and the
    last call it makes is the one log of its outcome, which says that the
    registry is initialized when nothing failed, and otherwise gives the
    message of the first failure met: of the bot model, of the reading of
    the records, of the creation of the default record for an empty table,
    of the reading of the plugin directory, or of a plugin.  A failure of
    the routes is logged by [setupRouter] and stops nothing. *)
Theorem initialize_never_throws (w : World) (r : t) :
  result_of (initialize w r) = Ret tt /\
  exists calls,
    trace_of (initialize w r) = calls ++ [outcome w r] /\
    existsb is_outcome calls = false.
Proof.
  destruct (fails w BotModel) as [m |] eqn:Hm.
  { assert (E : initialize w r
                = (Ret tt, r, [router_log w; LogError (MsgInitializationError m)])).
    { unfold initialize, try_catch. unfold bind at 1. rewrite setupRouter_spec.
      unfold attempt. rewrite Hm. reflexivity. }
    rewrite E. split; [reflexivity |]. exists [router_log w].
    unfold outcome, first_failure. rewrite Hm.
    cbn [existsb]. rewrite router_log_is_no_outcome. split; reflexivity. }
  destruct (fails w FindAll) as [m |] eqn:Hf.
  { assert (E : initialize w r
                = (Ret tt, r, [router_log w; CallFindAll;
                               LogError (MsgInitializationError m)])).
    { unfold initialize, try_catch. unfold bind at 1. rewrite setupRouter_spec.
      unfold findAll, attempt. rewrite Hm, Hf. reflexivity. }
    rewrite E. split; [reflexivity |]. exists [router_log w; CallFindAll].
    unfold outcome, first_failure. rewrite Hm, Hf.
    cbn [existsb]. rewrite router_log_is_no_outcome. split; reflexivity. }
  destruct (records r) as [| s0 recs] eqn:Hr.
  - destruct (fails w Create) as [m |] eqn:Hc.
    + assert (E : initialize w r
                  = (Ret tt, r, [router_log w; CallFindAll; CallCreate initialBotObject;
                                 LogError (MsgInitializationError m)])).
      { unfold initialize, try_catch. unfold bind at 1. rewrite setupRouter_spec.
        unfold findAll, create, attempt. rewrite Hm, Hf, Hc.
        unfold bind, emit, gets, throw, ret. rewrite Hr. reflexivity. }
      rewrite E. split; [reflexivity |].
      exists [router_log w; CallFindAll; CallCreate initialBotObject].
      unfold outcome, first_failure. rewrite Hm, Hf, Hr, Hc.
      cbn [existsb]. rewrite router_log_is_no_outcome. split; reflexivity.
    + destruct (initialize_reliable w r Hm Hf (or_intror Hc)) as (tail & E & Hq).
      rewrite E, Hr. split; [reflexivity |].
      apply discovery_calls_are_no_record_calls in Hq. destruct Hq as (_ & _ & _ & Hq).
      exists ([router_log w; CallFindAll; CallCreate initialBotObject; CallFindAll;
               NewBot (settings (handle_of initialBotObject)); SetupDiscovery] ++ tail).
      split; [reflexivity |].
      rewrite existsb_app, Hq. cbn [existsb]. rewrite router_log_is_no_outcome. reflexivity.
  - assert (Hn : records r <> []) by (rewrite Hr; discriminate).
    destruct (initialize_reliable w r Hm Hf (or_introl Hn)) as (tail & E & Hq).
    rewrite E, Hr. split; [reflexivity |].
    apply discovery_calls_are_no_record_calls in Hq. destruct Hq as (_ & _ & _ & Hq).
    exists (router_log w :: CallFindAll
              :: map (fun s => NewBot (settings (handle_of s))) (s0 :: recs)
              ++ SetupDiscovery :: tail).
    split.
    + cbn [trace_of snd app]. rewrite <- app_assoc. reflexivity.
    + cbn [existsb]. rewrite router_log_is_no_outcome. cbn [is_outcome orb].
      rewrite existsb_app. cbn [existsb is_outcome orb]. rewrite Hq.
      rewrite no_record_call_in_handles by reflexivity. reflexivity.
Qed.

(** X20.  When the bot model cannot be made, when the records cannot be
    read, or when the table is empty and the default record cannot be
    created, [initialize] logs the error and stops there: the table and the
    registry are as they were, and no handle has been made.  Before that
    [setupRouter] has logged what became of the routes: their setup, or the
    error of it. *)
Theorem failure_before_the_handles (w : World) (r : t) (msg : string) :
  let routes :=
    match fails w Routes with
    | None => LogInfo MsgRouterSetup
    | Some ex => LogError (MsgRouterError ex)
    end in
  (fails w BotModel = Some msg ->
   initialize w r
   = (Ret tt, r, [routes; LogError (MsgInitializationError msg)]))
  /\
  (fails w BotModel = None -> fails w FindAll = Some msg ->
   initialize w r
   = (Ret tt, r, [routes; CallFindAll; LogError (MsgInitializationError msg)]))
  /\
  (fails w BotModel = None -> fails w FindAll = None -> fails w Create = Some msg ->
   records r = [] ->
   initialize w r
   = (Ret tt, r, [routes; CallFindAll; CallCreate initialBotObject;
                  LogError (MsgInitializationError msg)])).
Proof.
  cbv zeta. change (match fails w Routes with
                    | None => LogInfo MsgRouterSetup
                    | Some ex => LogError (MsgRouterError ex)
                    end) with (router_log w).
  split; [| split]; intros Hm;
    unfold initialize, try_catch; unfold bind at 1; rewrite setupRouter_spec;
    unfold findAll, create, attempt; rewrite Hm.
  - reflexivity.
  - intros Hf. rewrite Hf. reflexivity.
  - intros Hf Hc Hr. rewrite Hf, Hc.
    unfold bind, emit, gets, throw, ret. rewrite Hr. reflexivity.
Qed.

Lemma failure_before_the_handles_witness :
  bots (state_of (initialize Sample.read_only (new []))) = [] /\
  records (state_of (initialize Sample.read_only (new []))) = [] /\
  bots (state_of (initialize Sample.no_table (new [Sample.serial]))) = [].
Proof.
  destruct (failure_before_the_handles Sample.read_only (new []) "read only")
    as (_ & _ & H3).
  destruct (failure_before_the_handles Sample.no_table (new [Sample.serial]) "no such table")
    as (_ & H2 & _).
  rewrite (H3 eq_refl eq_refl eq_refl eq_refl), (H2 eq_refl eq_refl).
  repeat split.
Defined.

(** X21.  When the table holds records and the bot model answers, none is
    created and the table is unchanged; one handle is made for each record,
    in the order of the table; the ports registered are exactly the ports
    of the records other than [__proto__], under which an assignment makes
    no property; of several records on one such port the last one gives the
    handle; and no port is registered twice. *)
Theorem records_become_handles (w : World) (rows : list Settings) :
  rows <> [] -> fails w BotModel = None -> fails w FindAll = None ->
  let r := initialize w (new rows) in
  records (state_of r) = rows /\
  existsb is_create (trace_of r) = false /\
  filter is_new_bot (trace_of r) = map (fun s => NewBot (settings (handle_of s))) rows /\
  (forall k, defined (aget k (bots (state_of r)))
             = existsb (fun s => (port s =? k)%string) rows
               && negb (k =? "__proto__")%string) /\
  (forall before s after,
     rows = before ++ s :: after -> (forall s', In s' after -> port s' <> port s) ->
     port s <> "__proto__" ->
     aget (port s) (bots (state_of r)) = Some (handle_of s)) /\
  NoDup (map fst (bots (state_of r))).
Proof.
  intros Hn Hm Hf.
  destruct (initialize_reliable w (new rows) Hm Hf (or_introl Hn)) as (tail & E & Hq).
  apply discovery_calls_are_no_record_calls in Hq. destruct Hq as (_ & Hc & Hb & _).
  cbv zeta. rewrite E. clear E. cbn [records bots new state_of trace_of fst snd].
  destruct rows as [| s0 rows]; [congruence |].
  set (l := s0 :: rows) in *.
  assert (Hr1 : is_create (router_log w) = false)
    by (unfold router_log; destruct (fails w Routes); reflexivity).
  assert (Hr2 : is_new_bot (router_log w) = false)
    by (unfold router_log; destruct (fails w Routes); reflexivity).
  assert (Ho1 : is_create (outcome w (new l)) = false)
    by (unfold outcome; destruct (first_failure w (new l)); reflexivity).
  assert (Ho2 : is_new_bot (outcome w (new l)) = false)
    by (unfold outcome; destruct (first_failure w (new l)); reflexivity).
  split; [reflexivity |]. split; [| split; [| split; [| split]]].
  - cbn [existsb is_create app orb]. rewrite Hr1, !existsb_app.
    cbn [existsb is_create orb]. rewrite existsb_app, Hc. cbn [existsb]. rewrite Ho1.
    rewrite no_record_call_in_handles by reflexivity. reflexivity.
  - cbn [filter is_new_bot app]. rewrite Hr2, filter_app. cbn [filter is_new_bot].
    rewrite filter_app, (existsb_false_filter _ _ Hb). cbn [filter app]. rewrite Ho2.
    rewrite app_nil_r.
    clear. induction l as [| a l IH]; [reflexivity |].
    cbn [map filter is_new_bot]. rewrite IH. reflexivity.
  - intros k. rewrite registered. cbn [aget defined]. apply orb_false_r.
  - intros before s after El Hlast Hp. rewrite El, fold_left_app. cbn [fold_left].
    rewrite later_records_keep by exact Hlast.
    unfold assign. apply String.eqb_neq in Hp. rewrite Hp.
    apply StateMachineProperties.aget_aset_same.
  - apply handles_distinct. constructor.
Qed.

Lemma records_become_handles_witness :
  aget "/dev/ttyACM0"
    (bots (state_of (initialize Sample.no_discovery
                       (new [Sample.serial; initialBotObject; Sample.serial]))))
  = Some (handle_of Sample.serial).
Proof.
  assert (Hn : [Sample.serial; initialBotObject; Sample.serial] <> []) by discriminate.
  destruct (records_become_handles Sample.no_discovery
              [Sample.serial; initialBotObject; Sample.serial] Hn eq_refl eq_refl)
    as (_ & _ & _ & _ & H & _).
  apply (H [Sample.serial; initialBotObject] Sample.serial []); [reflexivity | |].
  - intros s' [].
  - discriminate.
Defined.

(** X22.  Starting the registry again on the table that a first
    [initialize] left creates no further record: the table is not empty,
    and it is left as it is. *)
Theorem restart_creates_nothing (w1 w2 : World) (rows : list Settings) :
  fails w1 BotModel = None -> fails w1 FindAll = None -> fails w1 Create = None ->
  fails w2 BotModel = None -> fails w2 FindAll = None ->
  let r1 := state_of (initialize w1 (new rows)) in
  let r2 := initialize w2 (new (records r1)) in
  records r1 <> [] /\
  records (state_of r2) = records r1 /\
  existsb is_create (trace_of r2) = false.
Proof.
  intros Hm1 Hf1 Hc1 Hm2 Hf2.
  destruct (initialize_reliable w1 (new rows) Hm1 Hf1 (or_intror Hc1)) as (t1 & E1 & _).
  cbv zeta. rewrite E1. cbn [state_of fst snd records new].
  set (l := match rows with [] => [initialBotObject] | _ :: _ => rows end).
  assert (Hl : l <> []) by (subst l; destruct rows; discriminate).
  destruct (initialize_reliable w2 (new l) Hm2 Hf2 (or_introl Hl)) as (t2 & E2 & Hq).
  apply discovery_calls_are_no_record_calls in Hq. destruct Hq as (_ & Hc & _ & _).
  rewrite E2. cbn [state_of trace_of fst snd records new].
  destruct l as [| a l]; [congruence |].
  split; [discriminate |]. split; [reflexivity |].
  assert (Hr1 : is_create (router_log w2) = false)
    by (unfold router_log; destruct (fails w2 Routes); reflexivity).
  assert (Ho1 : is_create (outcome w2 (new (a :: l))) = false)
    by (unfold outcome; destruct (first_failure w2 (new (a :: l))); reflexivity).
  cbn [existsb is_create app orb]. rewrite Hr1, !existsb_app.
  cbn [existsb is_create orb]. rewrite existsb_app, Hc. cbn [existsb]. rewrite Ho1.
  rewrite no_record_call_in_handles by reflexivity. reflexivity.
Qed.

Lemma restart_creates_nothing_witness :
  records (state_of (initialize Sample.no_discovery
                       (new (records (state_of (initialize Sample.reliable (new [])))))))
  = records (state_of (initialize Sample.reliable (new []))).
Proof.
  apply (restart_creates_nothing Sample.reliable Sample.no_discovery []); reflexivity.
Defined.



(** The loop of [setupDiscovery] when no plugin fails. *)
Lemma plugins_run (body : string * option string -> BotsM unit) :
  (forall entry r,
     body entry r
     = if indexOf (fst entry) ".map" =? -1 then
         match snd entry with
         | Some msg => (Throw msg, r, [Discover (fst entry)])
         | None => (Ret tt, r, [Discover (fst entry);
                                LogInfo (MsgDiscovery (before_dot (fst entry)))])
         end
       else (Ret tt, r, [])) ->
  forall l r,
    plugin_failure l = None ->
    for_of l body r
    = (Ret tt, r,
       flat_map
         (fun entry =>
            if indexOf (fst entry) ".map" =? -1
            then [Discover (fst entry); LogInfo (MsgDiscovery (before_dot (fst entry)))]
            else [])
         l).
Proof.
  intros Hb. induction l as [| entry l IH]; intros r Hl;
    cbn [for_of flat_map plugin_failure] in *.
  - reflexivity.
  - unfold bind. rewrite Hb.
    destruct (indexOf (fst entry) ".map" =? -1).
    + destruct (snd entry) as [msg |]; [discriminate Hl |].
      rewrite (IH r Hl). reflexivity.
    + rewrite (IH r Hl). reflexivity.
Qed.

(** X26.  [setupRouter] never throws and leaves the registry as it is: it
    logs that the routes are set up, or, when setting them up failed, the
    error of it. *)
Theorem setupRouter_logs_its_failure (w : World) (r : t) :
  setupRouter w r
  = (Ret tt, r,
     [match fails w Routes with
      | None => LogInfo MsgRouterSetup
      | Some ex => LogError (MsgRouterError ex)
      end]).
Proof. apply setupRouter_spec. Qed.

(** X27.  [setupDiscovery] leaves the registry as it is.  When the plugin
    directory cannot be read it throws after that one call.  Otherwise it
    takes the files in order and skips those whose name contains [.map];
    when no plugin fails, each other file is loaded as a plugin and logged
    under its name up to the first dot, one log for each plugin, and
    [setupDiscovery] returns. *)
Theorem discovery_loads_each_plugin (w : World) (r : t) :
  state_of (setupDiscovery w r) = r /\
  (forall msg, fails w Discovery = Some msg ->
   setupDiscovery w r = (Throw msg, r, [SetupDiscovery]))
  /\
  (fails w Discovery = None -> plugin_failure (discoveryTypes w) = None ->
   setupDiscovery w r
   = (Ret tt, r,
      SetupDiscovery
        :: flat_map
             (fun entry =>
                if indexOf (fst entry) ".map" =? -1
                then [Discover (fst entry);
                      LogInfo (MsgDiscovery (before_dot (fst entry)))]
                else [])
             (discoveryTypes w))).
Proof.
  split; [| split].
  - destruct (setupDiscovery_spec w r) as (tr & E & _). rewrite E. reflexivity.
  - intros msg Hd. unfold setupDiscovery, attempt. rewrite Hd. reflexivity.
  - intros Hd Hp. unfold setupDiscovery, attempt. rewrite Hd.
    unfold bind at 1. unfold emit at 1. unfold bind at 1. unfold ret at 1.
    cbn [app].
    match goal with
    | |- context [for_of _ ?b r] => rewrite (plugins_run b)
    end.
    + reflexivity.
    + intros entry r'. unfold bind, emit, throw, ret.
      destruct (indexOf (fst entry) ".map" =? -1); [| reflexivity].
      destruct (snd entry); reflexivity.
    + exact Hp.
Qed.

Lemma discovery_loads_each_plugin_witness :
  trace_of (setupDiscovery Sample.reliable (new []))
  = [ SetupDiscovery;
      Discover "usb.js"; LogInfo (MsgDiscovery "usb");
      Discover "lan.js"; LogInfo (MsgDiscovery "lan") ].
Proof.
  rewrite (proj2 (proj2 (discovery_loads_each_plugin Sample.reliable (new [])))
             eq_refl eq_refl).
  reflexivity.
Defined.

End BotsBehaviour.
